(** * LavaLauncher: input-to-action dispatch, a shallow embedding

    The development follows three translation units of the panel:
    - [util.c]  : [counter_safe_subtract], [string_starts_with];
    - [item.c]  : the per-item command table ([find_item_command],
                  [item_add_command]) and [item_interaction];
    - [seat.c]  : the keyboard, touch and pointer handlers of a seat.

    Unsigned 32-bit fields are integers of [Z] with their wrap-around
    written out ([u32]); pointers into arrays and into the heap are
    indices; the calls a handler makes into other translation units are
    recorded, in order, in a trace. *)

From Stdlib Require Import ZArith Lia Bool String Ascii List.
From stdpp Require Import base option list.

#[local] Open Scope string_scope.
#[local] Open Scope list_scope.
#[local] Open Scope Z_scope.

(** ** Machine integers *)

Module Int.

Definition modulus32 : Z := 2 ^ 32.
Definition half32 : Z := 2 ^ 31.

(** Conversion to [uint32_t]. *)
Definition u32 (z : Z) : Z := z mod modulus32.

(** Conversion to [int32_t] (two's complement). *)
Definition s32 (z : Z) : Z := (z + half32) mod modulus32 - half32.

Definition is_u32 (z : Z) : Prop := 0 <= z < modulus32.
Definition is_s32 (z : Z) : Prop := - half32 <= z < half32.

End Int.

Import Int.

(** ** util.c *)

(** [void counter_safe_subtract (uint32_t *counter, uint32_t subtract)]:
    the new value of [*counter]. *)
Definition counter_safe_subtract (counter subtract : Z) : Z :=
  if subtract >? counter then 0 else u32 (counter - subtract).

(** [strncmp (a, b, n) == 0]: the first [n] characters agree, the
    comparison stopping at the terminator of either string. *)
Fixpoint strncmp_eq (a b : string) (n : nat) {struct n} : bool :=
  match n with
  | O => true
  | S n' =>
      match a, b with
      | EmptyString, EmptyString => true
      | String x a', String y b' => Ascii.eqb x y && strncmp_eq a' b' n'
      | _, _ => false
      end
  end.

(** [bool string_starts_with (const char *str, const char *prefix)]. *)
Definition string_starts_with (str prefix : string) : bool :=
  let len_str := String.length str in
  let len_prefix := String.length prefix in
  let min_len := if (len_prefix <? len_str)%nat then len_prefix else len_str in
  strncmp_eq prefix str min_len.

(** The pointer [str + n] read as a string: defined while it stays
    within the array (the terminator included), undefined past it. *)
Fixpoint string_offset (str : string) (n : nat) {struct n} : option string :=
  match n with
  | O => Some str
  | S n' =>
      match str with
      | EmptyString => None
      | String _ rest => string_offset rest n'
      end
  end.

(** ** item.h *)

Inductive Item_type := TYPE_BUTTON | TYPE_SPACER.

Inductive Interaction_type :=
| INTERACTION_MOUSE_BUTTON
| INTERACTION_MOUSE_SCROLL
| INTERACTION_TOUCH
| INTERACTION_UNIVERSAL.

Inductive Meta_action :=
| META_ACTION_NONE
| META_ACTION_TOPLEVEL_ACTIVATE
| META_ACTION_TOPLEVEL_CLOSE
| META_ACTION_RELOAD
| META_ACTION_EXIT.

#[global] Instance Item_type_eq_dec : EqDecision Item_type.
Proof. solve_decision. Defined.
#[global] Instance Interaction_type_eq_dec : EqDecision Interaction_type.
Proof. solve_decision. Defined.
#[global] Instance Meta_action_eq_dec : EqDecision Meta_action.
Proof. solve_decision. Defined.

(** [struct Lava_item_command]; [cmd_command = None] is the NULL string. *)
Record Lava_item_command := mk_command {
  cmd_type : Interaction_type;
  cmd_action : Meta_action;
  cmd_command : option string;
  cmd_modifiers : Z;
  cmd_special : Z
}.

(** [struct Lava_item]; [commands] is the [wl_list], head first. The icon
    plays no part in dispatch and is left out. *)
Record Lava_item := mk_item {
  item_type : Item_type;
  spacer_length : Z;
  commands : list Lava_item_command;
  associated_app_id : option string
}.

(** ** item.c: the command table *)

(** The condition of the [if] in the loop of [find_item_command]. *)
Definition command_matches (cmd : Lava_item_command) (type : Interaction_type)
    (modifiers special : Z) (allow_universal : bool) : bool :=
  (bool_decide (cmd_type cmd = type)
     && (cmd_modifiers cmd =? modifiers) && (cmd_special cmd =? special))
  || (allow_universal
        && bool_decide (cmd_type cmd = INTERACTION_UNIVERSAL)
        && negb (bool_decide (type = INTERACTION_MOUSE_SCROLL))).

(** [find_item_command]: the position, in list order, of the first
    command that satisfies the condition; [None] is NULL. *)
Fixpoint find_item_command (cmds : list Lava_item_command)
    (type : Interaction_type) (modifiers special : Z)
    (allow_universal : bool) : option nat :=
  match cmds with
  | [] => None
  | cmd :: rest =>
      if command_matches cmd type modifiers special allow_universal
      then Some O
      else S <$> find_item_command rest type modifiers special allow_universal
  end.

(** The table [actions] of [item_add_command]. *)
Definition actions : list (string * Meta_action) :=
  [ ("@toplevel-activate", META_ACTION_TOPLEVEL_ACTIVATE);
    ("@toplevel-close",    META_ACTION_TOPLEVEL_CLOSE);
    ("@reload",            META_ACTION_RELOAD);
    ("@exit",              META_ACTION_EXIT) ].

Definition set_action (a : Meta_action) (cmd : Lava_item_command) :=
  mk_command (cmd_type cmd) a (cmd_command cmd) (cmd_modifiers cmd) (cmd_special cmd).

(** [set_string (&cmd->command, s)] and the [free_if_set]/NULL pair;
    [strdup] is taken to succeed. *)
Definition set_command (s : option string) (cmd : Lava_item_command) :=
  mk_command (cmd_type cmd) (cmd_action cmd) s (cmd_modifiers cmd) (cmd_special cmd).

(** What a call of [item_add_command] comes to. *)
Inductive add_result :=
| AddFalse
    (* calloc failed: false is returned, the table is as before *)
| AddTrue (cmds : list Lava_item_command)
    (* true is returned; the table afterwards *)
| AddUndefined (cmds : list Lava_item_command).
    (* [command + strlen(name)] lies past the terminator of [command]:
       the table when [set_string] is about to read from it *)

(** The [FOR_ARRAY] loop over [actions], for the command at position [i]. *)
Fixpoint match_meta_action (acts : list (string * Meta_action))
    (cmds : list Lava_item_command) (i : nat) (command : string)
    : option add_result :=
  match acts with
  | [] => None
  | (name, act) :: acts' =>
      if string_starts_with command name then
        let cmds1 := alter (set_action act) i cmds in
        if (String.length command =? String.length name)%nat then
          Some (AddTrue (alter (set_command None) i cmds1))
        else
          match string_offset command (String.length name) with
          | Some rest => Some (AddTrue (alter (set_command (Some rest)) i cmds1))
          | None => Some (AddUndefined cmds1)
          end
      else match_meta_action acts' cmds i command
  end.

(** The part of [item_add_command] after the command is found or made. *)
Definition parse_meta_action (cmds : list Lava_item_command) (i : nat)
    (command : string) : add_result :=
  let plain :=
    AddTrue (alter (set_command (Some command)) i
               (alter (set_action META_ACTION_NONE) i cmds)) in
  match command with
  | String "@" _ =>
      match match_meta_action actions cmds i command with
      | Some r => r
      | None => plain
      end
  | _ => plain
  end.

(** [item_add_command]; [calloc_ok] tells whether the allocation of a new
    command succeeds. A new command is zeroed by [calloc] (so its action is
    the first enumerator) and inserted at the head of the list. *)
Definition item_add_command (calloc_ok : bool) (cmds : list Lava_item_command)
    (command : string) (type : Interaction_type) (modifiers special : Z)
    : add_result :=
  match find_item_command cmds type modifiers special false with
  | Some i => parse_meta_action cmds i command
  | None =>
      if calloc_ok then
        parse_meta_action
          (mk_command type META_ACTION_NONE None modifiers special :: cmds)
          O command
      else AddFalse
  end.

(** ** seat.h and the objects a seat points to

    [seat.h] is not among the sources at hand. Its structures are modelled
    from the data model of the specification and hold the fields that the
    handlers of [seat.c] read and write, under the names used there. *)

(** A pointer into the array of item instances, or into the heap of
    touchpoints. *)
Abbreviation ptr := nat (only parsing).

(** An object owned by the compositor or by xkbcommon. *)
Abbreviation handle := nat (only parsing).

(** [struct Lava_item_instance], without its surfaces and buffers. The item
    is shared and not written to by any handler: it is held by value. *)
Record Lava_item_instance := mk_item_instance {
  ii_item : Lava_item;
  ii_bar_instance : ptr;
  indicator : Z;
  active_indicator : Z;
  toplevel_exists_indicator : Z;
  toplevel_activated_indicator : Z;
  dirty : bool;
  active : bool
}.

Definition set_indicator (v : Z) (i : Lava_item_instance) :=
  mk_item_instance (ii_item i) (ii_bar_instance i) v (active_indicator i)
    (toplevel_exists_indicator i) (toplevel_activated_indicator i)
    (dirty i) (active i).

Definition set_active_indicator (v : Z) (i : Lava_item_instance) :=
  mk_item_instance (ii_item i) (ii_bar_instance i) (indicator i) v
    (toplevel_exists_indicator i) (toplevel_activated_indicator i)
    (dirty i) (active i).

Definition set_dirty (b : bool) (i : Lava_item_instance) :=
  mk_item_instance (ii_item i) (ii_bar_instance i) (indicator i)
    (active_indicator i) (toplevel_exists_indicator i)
    (toplevel_activated_indicator i) b (active i).

(** Modelled from the spec: [struct Lava_touchpoint] of the missing
    [seat.h], a touch identifier with the bar instance and the item
    instance the touch began on; the list link is left out. *)
Record Lava_touchpoint := mk_touchpoint {
  tp_id : Z;
  tp_instance : option ptr;
  tp_item_instance : ptr
}.

Inductive Lava_cursor_type := CURSOR_NONE | CURSOR_DEFAULT | CURSOR_POINTER.

(** Modelled from the spec: [seat->keyboard] of the missing [seat.h], the
    keyboard object, the three xkb objects and the modifier mask. *)
Record Keyboard := mk_keyboard {
  wl_keyboard : option handle;
  kb_context : option handle;
  keymap : option handle;
  kb_state : option handle;
  modifiers : Z
}.

(** Modelled from the spec: [seat->touch] of the missing [seat.h];
    [touchpoints] is the [wl_list] of the touchpoints that are linked into
    it, by address. *)
Record Touch := mk_touch {
  wl_touch : option handle;
  touchpoints : list ptr
}.

(** Modelled from the spec: [seat->pointer.cursor] of the missing
    [seat.h]. *)
Record Cursor := mk_cursor {
  cursor_type : Lava_cursor_type;
  cursor_surface : option handle;
  cursor_theme : option handle;
  cursor_image : option handle;
  cursor_wl_cursor : option handle
}.

(** Modelled from the spec: [seat->pointer] of the missing [seat.h]:
    position, bar instance and item instance under the pointer, the two
    scroll accumulators with the time of the last axis event, the press
    depth [click] and the cursor. *)
Record Pointer := mk_pointer {
  wl_pointer : option handle;
  serial : Z;
  pointer_x : Z;
  pointer_y : Z;
  instance : option ptr;
  item_instance : option ptr;
  discrete_steps : Z;
  last_update_time : Z;
  value : Z;
  click : Z;
  cursor : Cursor
}.

Definition set_item_instance (v : option ptr) (p : Pointer) :=
  mk_pointer (wl_pointer p) (serial p) (pointer_x p) (pointer_y p) (instance p)
    v (discrete_steps p) (last_update_time p) (value p) (click p) (cursor p).

Definition set_discrete_steps (v : Z) (p : Pointer) :=
  mk_pointer (wl_pointer p) (serial p) (pointer_x p) (pointer_y p) (instance p)
    (item_instance p) v (last_update_time p) (value p) (click p) (cursor p).

Definition set_last_update_time (v : Z) (p : Pointer) :=
  mk_pointer (wl_pointer p) (serial p) (pointer_x p) (pointer_y p) (instance p)
    (item_instance p) (discrete_steps p) v (value p) (click p) (cursor p).

Definition set_value (v : Z) (p : Pointer) :=
  mk_pointer (wl_pointer p) (serial p) (pointer_x p) (pointer_y p) (instance p)
    (item_instance p) (discrete_steps p) (last_update_time p) v (click p)
    (cursor p).

Definition set_click (v : Z) (p : Pointer) :=
  mk_pointer (wl_pointer p) (serial p) (pointer_x p) (pointer_y p) (instance p)
    (item_instance p) (discrete_steps p) (last_update_time p) (value p) v
    (cursor p).

Definition set_cursor (c : Cursor) (p : Pointer) :=
  mk_pointer (wl_pointer p) (serial p) (pointer_x p) (pointer_y p) (instance p)
    (item_instance p) (discrete_steps p) (last_update_time p) (value p)
    (click p) c.

Definition set_wl_pointer (v : option handle) (p : Pointer) :=
  mk_pointer v (serial p) (pointer_x p) (pointer_y p) (instance p)
    (item_instance p) (discrete_steps p) (last_update_time p) (value p)
    (click p) (cursor p).

(** Modelled from the spec: [struct Lava_seat] of the missing [seat.h],
    without its list link and global name. *)
Record Lava_seat := mk_seat {
  wl_seat : handle;
  keyboard : Keyboard;
  touch : Touch;
  pointer : Pointer
}.

(** What the handlers do to the world outside the seat, in order. *)
Inductive event :=
| EvDestroy (fn : string) (h : handle)
    (* the destructor [fn] called on an object *)
| EvScheduleFrame (bar : option ptr)
    (* bar_instance_schedule_frame *)
| EvItemInteraction (item : Lava_item) (bar : option ptr)
    (type : Interaction_type) (mods special : Z)
    (* a call of item_interaction *)
| EvExec (command : string) (bar : option ptr)
    (* item_command_exec_first_fork *)
| EvToplevelActivate (toplevel seat : handle)
| EvToplevelClose (toplevel : handle)
| EvLog (msg : string).
    (* a message of level 0 *)

(** The state the handlers work on: one seat, the item instances of the
    bars, the heap of allocated touchpoints ([None] once freed), the loop
    flags of [context], and the trace. *)
Record World := mk_world {
  seat : Lava_seat;
  instances : list Lava_item_instance;
  heap : list (option Lava_touchpoint);
  ctx_loop : bool;
  ctx_reload : bool;
  trace : list event
}.

Definition set_keyboard (k : Keyboard) (w : World) :=
  mk_world (mk_seat (wl_seat (seat w)) k (touch (seat w)) (pointer (seat w)))
    (instances w) (heap w) (ctx_loop w) (ctx_reload w) (trace w).

Definition set_touch (t : Touch) (w : World) :=
  mk_world (mk_seat (wl_seat (seat w)) (keyboard (seat w)) t (pointer (seat w)))
    (instances w) (heap w) (ctx_loop w) (ctx_reload w) (trace w).

Definition set_pointer (p : Pointer) (w : World) :=
  mk_world (mk_seat (wl_seat (seat w)) (keyboard (seat w)) (touch (seat w)) p)
    (instances w) (heap w) (ctx_loop w) (ctx_reload w) (trace w).

Definition set_instances (l : list Lava_item_instance) (w : World) :=
  mk_world (seat w) l (heap w) (ctx_loop w) (ctx_reload w) (trace w).

Definition set_heap (h : list (option Lava_touchpoint)) (w : World) :=
  mk_world (seat w) (instances w) h (ctx_loop w) (ctx_reload w) (trace w).

Definition set_loop_flags (loop reload : bool) (w : World) :=
  mk_world (seat w) (instances w) (heap w) loop reload (trace w).

Definition emit (e : event) (w : World) :=
  mk_world (seat w) (instances w) (heap w) (ctx_loop w) (ctx_reload w)
    (trace w ++ [e]).

Definition kbd (w : World) : Keyboard := keyboard (seat w).
Definition ptr_state (w : World) : Pointer := pointer (seat w).
Definition tch (w : World) : Touch := touch (seat w).

(** A write through a pointer to an item instance; [None] when the pointer
    does not point into the array (the C program would be undefined). *)
Definition update_instance (ii : ptr)
    (f : Lava_item_instance -> Lava_item_instance) (w : World) : option World :=
  inst ← instances w !! ii;
  Some (set_instances (<[ii := f inst]> (instances w)) w).

(** Modelled from the spec: the macro [DESTROY_NULL (A, B)] of the missing
    [util.h], which releases an owned object once: when [A] is set, [B (A)]
    is called; the caller sets the field to NULL. *)
Definition destroy_null (fn : string) (field : option handle) (w : World) : World :=
  match field with
  | Some h => emit (EvDestroy fn h) w
  | None => w
  end.

(** [wl_fixed_to_int] of wayland-util.h: a 24.8 fixed-point number divided
    by 256, rounding toward zero as C does. *)
Definition wl_fixed_to_int (f : Z) : Z := Z.quot f 256.

(** [abs] of stdlib.h on an [int] other than [INT_MIN]. *)
Definition c_abs (v : Z) : Z := Z.abs v.

Definition CONTINUOUS_SCROLL_THRESHHOLD : Z := 10000.
Definition CONTINUOUS_SCROLL_TIMEOUT : Z := 1000.

Section Handlers.

#[local] Set Default Proof Using "Type".

(** Functions of other translation units ([toplevel.c], [bar.c]), whose
    sources are not at hand: parameters of the development. *)
Variable find_toplevel_with_app_id : option string -> option handle.
Variable bar_instance_from_surface : handle -> option ptr.
Variable bar_instance_get_item_instance_from_coords :
  option ptr -> Z -> Z -> option ptr.

(** The declaration of [seat->pointer.click] is in the missing header. The
    handlers print it with [%d] and cast it to [uint32_t] wherever it meets
    an indicator, as for a signed field; both readings are kept. *)
Variable click_signed : bool.

Definition click_conv (z : Z) : Z := if click_signed then s32 z else u32 z.

(** ** item.c: dispatch *)

(** [execute_item_command]; the two forks are one [EvExec]. *)
Definition execute_item_command (cmd : Lava_item_command) (bar : option ptr)
    (w : World) : World :=
  match cmd_command cmd with
  | None => w
  | Some command => emit (EvExec command bar) w
  end.

(** The command [find_item_command] returns a pointer to. *)
Definition lookup_item_command (item : Lava_item) (type : Interaction_type)
    (mods special : Z) (allow_universal : bool) : option Lava_item_command :=
  i ← find_item_command (commands item) type mods special allow_universal;
  commands item !! i.

(** [item_interaction]; each call is recorded as [EvItemInteraction]. *)
Definition item_interaction (item : Lava_item) (bar : option ptr)
    (type : Interaction_type) (mods special : Z) (w0 : World) : World :=
  let w := emit (EvItemInteraction item bar type mods special) w0 in
  if bool_decide (item_type item <> TYPE_BUTTON) then w
  else
    match lookup_item_command item type mods special true with
    | None => w
    | Some cmd =>
        match cmd_action cmd with
        | META_ACTION_NONE => execute_item_command cmd bar w
        | META_ACTION_TOPLEVEL_ACTIVATE =>
            match find_toplevel_with_app_id (associated_app_id item) with
            | None => execute_item_command cmd bar w
            | Some toplevel => emit (EvToplevelActivate toplevel (wl_seat (seat w))) w
            end
        | META_ACTION_TOPLEVEL_CLOSE =>
            match find_toplevel_with_app_id (associated_app_id item) with
            | None => execute_item_command cmd bar w
            | Some toplevel => emit (EvToplevelClose toplevel) w
            end
        | META_ACTION_RELOAD =>
            set_loop_flags false true (execute_item_command cmd bar w)
        | META_ACTION_EXIT =>
            set_loop_flags false false (execute_item_command cmd bar w)
        end
    end.

(** ** seat.c: keyboard *)

(** [keyboard_handle_keymap]. [mmap_ok] tells whether the mapping of the
    keymap file succeeded; [new_keymap] and [new_state] are what
    [xkb_keymap_new_from_string] and [xkb_state_new] return (NULL is
    [None]). *)
Definition keyboard_handle_keymap (mmap_ok : bool)
    (new_keymap new_state : option handle) (w : World) : World :=
  if mmap_ok then
    let k := kbd w in
    let w1 := destroy_null "xkb_keymap_unref" (keymap k) w in
    let w2 := destroy_null "xkb_state_unref" (kb_state k) w1 in
    match new_keymap with
    | None =>
        emit (EvLog "Error: Failed to get xkb keymap.")
          (set_keyboard
             (mk_keyboard (wl_keyboard k) (kb_context k) None None (modifiers k))
             w2)
    | Some _ =>
        match new_state with
        | None =>
            emit (EvLog "Error: Failed to get xkb state.")
              (set_keyboard
                 (mk_keyboard (wl_keyboard k) (kb_context k) new_keymap None
                    (modifiers k))
                 w2)
        | Some _ =>
            set_keyboard
              (mk_keyboard (wl_keyboard k) (kb_context k) new_keymap new_state
                 (modifiers k))
              w2
        end
    end
  else w.

(** [seat_release_keyboard]. *)
Definition seat_release_keyboard (w : World) : World :=
  let k := kbd w in
  let w1 := destroy_null "wl_keyboard_release" (wl_keyboard k) w in
  let w2 := destroy_null "xkb_context_unref" (kb_context k) w1 in
  let w3 := destroy_null "xkb_keymap_unref" (keymap k) w2 in
  let w4 := destroy_null "xkb_state_unref" (kb_state k) w3 in
  set_keyboard (mk_keyboard None None None None 0) w4.

(** [seat_bind_keyboard]. The arguments are what [wl_seat_get_keyboard],
    [xkb_context_new], [xkb_keymap_new_from_names] and [xkb_state_new]
    return. *)
Definition seat_bind_keyboard (new_keyboard new_context new_keymap
    new_state : option handle) (w : World) : World :=
  let k := kbd w in
  let k1 := mk_keyboard new_keyboard new_context (keymap k) (kb_state k)
              (modifiers k) in
  match new_context with
  | None =>
      seat_release_keyboard
        (emit (EvLog "Error: Failed to setup xkb context.") (set_keyboard k1 w))
  | Some _ =>
      let k2 := mk_keyboard new_keyboard new_context new_keymap (kb_state k)
                  (modifiers k) in
      match new_keymap with
      | None =>
          seat_release_keyboard
            (emit (EvLog "Error: Failed to setup xkb keymap.") (set_keyboard k2 w))
      | Some _ =>
          let k3 := mk_keyboard new_keyboard new_context new_keymap new_state
                      (modifiers k) in
          match new_state with
          | None =>
              seat_release_keyboard
                (emit (EvLog "Error: Failed to setup xkb state.") (set_keyboard k3 w))
          | Some _ => set_keyboard k3 w
          end
      end
  end.

(** ** seat.c: touchpoints *)

(** [create_touchpoint]. [calloc_ok] tells whether [TRY_NEW] gets its
    memory; the new touchpoint lives at the end of the heap. The function
    returns without linking the touchpoint into [seat->touch.touchpoints]. *)
Definition create_touchpoint (calloc_ok : bool) (id : Z) (bar : option ptr)
    (ii : ptr) (w : World) : option (bool * World) :=
  if calloc_ok then
    let w1 := set_heap (heap w ++ [Some (mk_touchpoint id bar ii)]) w in
    w2 ← update_instance ii
           (fun i => set_dirty true
                       (set_active_indicator (u32 (active_indicator i + 1)) i))
           w1;
    Some (true, emit (EvScheduleFrame bar) w2)
  else Some (false, w).

(** [destroy_touchpoint]. *)
Definition destroy_touchpoint (tp : ptr) (w : World) : option World :=
  t ← mjoin (heap w !! tp);
  w1 ← update_instance (tp_item_instance t)
         (fun i => set_dirty true
                     (set_active_indicator
                        (counter_safe_subtract (active_indicator i) 1) i))
         w;
  let w2 := set_touch (mk_touch (wl_touch (tch w1))
                         (List.remove Nat.eq_dec tp (touchpoints (tch w1)))) w1 in
  let w3 := emit (EvScheduleFrame (tp_instance t)) w2 in
  Some (set_heap (<[tp := None]> (heap w3)) w3).

(** The loop of [destroy_all_touchpoints] over the list as it stands. *)
Fixpoint destroy_touchpoints (l : list ptr) (w : World) : option World :=
  match l with
  | [] => Some w
  | tp :: rest => w1 ← destroy_touchpoint tp w; destroy_touchpoints rest w1
  end.

Definition destroy_all_touchpoints (w : World) : option World :=
  destroy_touchpoints (touchpoints (tch w)) w.

(** The loop of [touchpoint_from_id]: [Some None] is NULL; [None] is a
    list entry that is not a live touchpoint. *)
Fixpoint touchpoint_in_list (l : list ptr) (h : list (option Lava_touchpoint))
    (id : Z) : option (option ptr) :=
  match l with
  | [] => Some None
  | tp :: rest =>
      t ← mjoin (h !! tp);
      if tp_id t =? id then Some (Some tp) else touchpoint_in_list rest h id
  end.

Definition touchpoint_from_id (w : World) (id : Z) : option (option ptr) :=
  touchpoint_in_list (touchpoints (tch w)) (heap w) id.

(** ** seat.c: touch *)

Definition touch_handle_up (id : Z) (w : World) : option World :=
  found ← touchpoint_from_id w id;
  match found with
  | None => Some w
  | Some tp =>
      t ← mjoin (heap w !! tp);
      inst ← instances w !! tp_item_instance t;
      destroy_touchpoint tp
        (item_interaction (ii_item inst) (tp_instance t) INTERACTION_TOUCH
           (modifiers (kbd w)) 0 w)
  end.

Definition touch_handle_down (calloc_ok : bool) (surface : handle) (id : Z)
    (fx fy : Z) (w : World) : option World :=
  let x := wl_fixed_to_int fx in
  let y := wl_fixed_to_int fy in
  let bar := bar_instance_from_surface surface in
  match bar_instance_get_item_instance_from_coords bar x y with
  | None => Some w
  | Some ii =>
      '(created, w1) ← create_touchpoint calloc_ok id bar ii w;
      if (created : bool) then Some w1
      else Some (emit (EvLog "ERROR: could not create touchpoint") w1)
  end.

Definition touch_handle_motion (id : Z) (fx fy : Z) (w : World) : option World :=
  found ← touchpoint_from_id w id;
  match found with
  | None => Some w
  | Some tp =>
      t ← mjoin (heap w !! tp);
      match bar_instance_get_item_instance_from_coords (tp_instance t)
              (wl_fixed_to_int fx) (wl_fixed_to_int fy) with
      | None => destroy_touchpoint tp w
      | Some ii =>
          if bool_decide (ii <> tp_item_instance t)
          then destroy_touchpoint tp w
          else Some w
      end
  end.

Definition touch_handle_cancel (w : World) : option World :=
  destroy_all_touchpoints w.

Definition seat_release_touch (w : World) : option World :=
  w1 ← destroy_all_touchpoints w;
  Some (set_touch (mk_touch None (touchpoints (tch w1)))
          (destroy_null "wl_touch_release" (wl_touch (tch w1)) w1)).

(** ** seat.c: cursor and pointer *)

Definition seat_pointer_unset_cursor (w : World) : World :=
  let c := cursor (ptr_state w) in
  let w1 := destroy_null "wl_cursor_theme_destroy" (cursor_theme c) w in
  let w2 := destroy_null "wl_surface_destroy" (cursor_surface c) w1 in
  set_pointer (set_cursor (mk_cursor CURSOR_NONE None None None None) (ptr_state w2)) w2.

Definition WL_POINTER_BUTTON_STATE_PRESSED : Z := 1.
Definition WL_POINTER_AXIS_VERTICAL_SCROLL : Z := 0.

(** [pointer_handle_button]. *)
Definition pointer_handle_button (button button_state : Z) (w : World)
    : option World :=
  match instance (ptr_state w) with
  | None => Some (emit (EvLog "ERROR: Button press on unexpected surface.") w)
  | Some bar =>
      if button_state =? WL_POINTER_BUTTON_STATE_PRESSED then
        let w1 := set_pointer
                    (set_click (click_conv (click (ptr_state w) + 1)) (ptr_state w))
                    w in
        match item_instance (ptr_state w1) with
        | None => Some w1
        | Some ii =>
            w2 ← update_instance ii
                   (fun i => set_dirty true
                               (set_active_indicator
                                  (u32 (active_indicator i + 1)) i))
                   w1;
            Some (emit (EvScheduleFrame (Some bar)) w2)
        end
      else
        let w1 := set_pointer
                    (set_click (click_conv (click (ptr_state w) - 1)) (ptr_state w))
                    w in
        match item_instance (ptr_state w1) with
        | None => Some w1
        | Some ii =>
            w2 ← update_instance ii
                   (fun i => set_dirty true
                               (set_active_indicator
                                  (counter_safe_subtract (active_indicator i) 1) i))
                   w1;
            inst ← instances w2 !! ii;
            Some (emit (EvScheduleFrame (Some bar))
                    (item_interaction (ii_item inst) (Some bar)
                       INTERACTION_MOUSE_BUTTON (modifiers (kbd w2)) button w2))
        end
  end.

(** [pointer_handle_axis]; [time] is a [uint32_t], [value] a [wl_fixed_t]. *)
Definition pointer_handle_axis (time axis val : Z) (w : World) : World :=
  if negb (axis =? WL_POINTER_AXIS_VERTICAL_SCROLL) then w
  else
    match instance (ptr_state w) with
    | None => emit (EvLog "ERROR: Scrolling on unexpected surface.") w
    | Some _ =>
        let p := ptr_state w in
        let p1 :=
          if (discrete_steps p =? 0)
             && (u32 (time - last_update_time p) >? CONTINUOUS_SCROLL_TIMEOUT)
          then set_value 0 p else p in
        set_pointer
          (set_last_update_time time (set_value (s32 (value p1 + val)) p1)) w
    end.

(** [pointer_handle_axis_discrete]. *)
Definition pointer_handle_axis_discrete (axis steps : Z) (w : World) : World :=
  if negb (axis =? WL_POINTER_AXIS_VERTICAL_SCROLL) then w
  else
    match instance (ptr_state w) with
    | None => emit (EvLog "ERROR: Scrolling on unexpected surface.") w
    | Some _ =>
        let p := ptr_state w in
        set_pointer
          (set_discrete_steps (u32 (discrete_steps p + u32 (c_abs steps))) p) w
    end.

(** One call of [item_interaction] from [pointer_handle_frame], on the item
    of the hovered instance. *)
Definition frame_interaction (ii : ptr) (bar : ptr) (direction : Z) (w : World)
    : option World :=
  inst ← instances w !! ii;
  Some (item_interaction (ii_item inst) (Some bar) INTERACTION_MOUSE_SCROLL
          (modifiers (kbd w)) direction w).

(** The [for] loop of [pointer_handle_frame], [n] iterations to go. *)
Fixpoint frame_discrete_loop (n : nat) (ii bar : ptr) (direction : Z) (w : World)
    : option World :=
  match n with
  | O => Some w
  | S n' =>
      w1 ← frame_interaction ii bar direction w;
      frame_discrete_loop n' ii bar direction w1
  end.

(** The [while] loop of [pointer_handle_frame]; [None] also when [fuel]
    iterations do not reach the end of the loop. *)
Fixpoint frame_continuous_loop (fuel : nat) (ii bar : ptr)
    (direction value_change : Z) (w : World) : option World :=
  if c_abs (value (ptr_state w)) >? CONTINUOUS_SCROLL_THRESHHOLD then
    match fuel with
    | O => None
    | S fuel' =>
        w1 ← frame_interaction ii bar direction w;
        frame_continuous_loop fuel' ii bar direction value_change
          (set_pointer
             (set_value (s32 (value (ptr_state w1) + value_change)) (ptr_state w1))
             w1)
    end
  else Some w.

(** [pointer_handle_frame]. *)
Definition pointer_handle_frame (fuel : nat) (w : World) : option World :=
  match instance (ptr_state w) with
  | None => Some w
  | Some bar =>
      match item_instance (ptr_state w) with
      | None => Some w
      | Some ii =>
          let '(direction, value_change) :=
            if wl_fixed_to_int (value (ptr_state w)) >? 0
            then (0, - CONTINUOUS_SCROLL_THRESHHOLD)
            else (1, CONTINUOUS_SCROLL_THRESHHOLD) in
          if negb (discrete_steps (ptr_state w) =? 0) then
            w1 ← frame_discrete_loop (Z.to_nat (discrete_steps (ptr_state w)))
                   ii bar direction w;
            Some (set_pointer
                    (set_value 0 (set_discrete_steps 0 (ptr_state w1))) w1)
          else frame_continuous_loop fuel ii bar direction value_change w
      end
  end.

(** [seat_release_pointer]. *)
Definition seat_release_pointer (w : World) : option World :=
  w' ← match item_instance (ptr_state w) with
       | Some ii =>
           w1 ← update_instance ii
                  (fun i =>
                     let i1 := set_indicator
                                 (counter_safe_subtract (indicator i) 1) i in
                     let i2 := set_active_indicator
                                 (counter_safe_subtract (active_indicator i1)
                                    (u32 (click (ptr_state w)))) i1 in
                     set_dirty true i2)
                  w;
           let w2 := emit (EvScheduleFrame (instance (ptr_state w1))) w1 in
           Some (set_pointer
                   (set_click 0 (set_item_instance None (ptr_state w2))) w2)
       | None => Some w
       end;
  let w3 := seat_pointer_unset_cursor w' in
  Some (set_pointer (set_wl_pointer None (ptr_state w3))
          (destroy_null "wl_pointer_release" (wl_pointer (ptr_state w3)) w3)).

(** ** seat.c: the seat *)

(** [destroy_seat], up to the unlinking and freeing of the seat itself. *)
Definition destroy_seat (w : World) : option World :=
  let w1 := seat_release_keyboard w in
  w2 ← seat_release_touch w1;
  w3 ← seat_release_pointer w2;
  Some (emit (EvDestroy "wl_seat_release" (wl_seat (seat w3))) w3).

(** ** Observations on a trace *)

Definition is_interaction (e : event) : bool :=
  match e with EvItemInteraction _ _ _ _ _ => true | _ => false end.

Definition is_exec (e : event) : bool :=
  match e with EvExec _ _ => true | _ => false end.

(** The calls of [item_interaction] in a trace, in order. *)
Definition interactions (t : list event) : list event :=
  List.filter is_interaction t.

(** The commands run in a trace. *)
Definition executions (t : list event) : list event :=
  List.filter is_exec t.

(** ** Quantities the properties are stated with *)

(** The command stored for what follows a meta action: NULL when nothing
    follows. *)
Definition stored_rest (rest : string) : option string :=
  match rest with
  | EmptyString => None
  | _ => Some rest
  end.

(** The number of turns of the [while] loop on the value [v]. *)
Definition continuous_turns (v : Z) : nat :=
  Z.to_nat ((Z.abs v - 1) / CONTINUOUS_SCROLL_THRESHHOLD).

(** What a button event adds to the press depth. *)
Definition button_delta (button_state : Z) : Z :=
  if button_state =? WL_POINTER_BUTTON_STATE_PRESSED then 1 else -1.

(** Presses minus releases of a sequence of (button, state) events. *)
Definition net_presses (evs : list (Z * Z)) : Z :=
  fold_right (fun ev acc => button_delta (snd ev) + acc) 0 evs.

(** The button events of a sequence handled one after the other. *)
Fixpoint pointer_button_events (evs : list (Z * Z)) (w : World) : option World :=
  match evs with
  | [] => Some w
  | (button, button_state) :: rest =>
      w1 ← pointer_handle_button button button_state w;
      pointer_button_events rest w1
  end.

(** The hovered item instance, if any, is one of the array. *)
Definition hover_valid (w : World) : Prop :=
  forall ii, item_instance (ptr_state w) = Some ii ->
             (ii < length (instances w))%nat.

(** The hover count and the press count of the item instance at [ii]. *)
Definition hover_count (ii : ptr) (w : World) : option Z :=
  indicator <$> instances w !! ii.

Definition press_count (ii : ptr) (w : World) : option Z :=
  active_indicator <$> instances w !! ii.

(** The hover count and the press count of every item instance are values
    of their type, [uint32_t]. *)
Definition uint32_counts (w : World) : Prop :=
  Forall (fun i => is_u32 (indicator i) /\ is_u32 (active_indicator i))
    (instances w).

(** ** A panel with two buttons, for the examples *)

(** No toplevel is open. *)
Definition no_toplevel : option string -> option nat := fun _ => None.

(** Every surface is the surface of bar 0. *)
Definition one_bar : nat -> option nat := fun _ => Some O.

(** Two items of width 64 side by side. *)
Definition item_at (bar : option nat) (x y : Z) : option nat :=
  if (0 <=? x) && (x <? 64) then Some O
  else if (64 <=? x) && (x <? 128) then Some 1%nat
  else None.

Definition BTN_LEFT : Z := 272.
Definition BTN_RIGHT : Z := 273.

Definition left_click_command : Lava_item_command :=
  mk_command INTERACTION_MOUSE_BUTTON META_ACTION_NONE (Some "cmd1") 0 BTN_LEFT.

Definition universal_command : Lava_item_command :=
  mk_command INTERACTION_UNIVERSAL META_ACTION_NONE (Some "cmd2") 0 0.

Definition launcher : Lava_item :=
  mk_item TYPE_BUTTON 0 [left_click_command; universal_command] None.

Definition launcher_instance (hover press : Z) : Lava_item_instance :=
  mk_item_instance launcher O hover press 0 0 false true.

Definition pointer_over (hovered : option nat) (steps val depth : Z) : Pointer :=
  mk_pointer (Some 1%nat) 0 10 10 (Some O) hovered steps 0 val depth
    (mk_cursor CURSOR_NONE None None None None).

Definition panel (k : Keyboard) (t : Touch) (p : Pointer)
    (insts : list Lava_item_instance) (h : list (option Lava_touchpoint)) : World :=
  mk_world (mk_seat 9%nat k t p) insts h true false [].

Definition no_keyboard : Keyboard := mk_keyboard None None None None 0.

(** A bound keyboard with one modifier held. *)
Definition bound_keyboard : Keyboard :=
  mk_keyboard (Some 20%nat) (Some 21%nat) (Some 22%nat) (Some 23%nat) 1.

(** The pointer rests on bar 0, off the items; nothing is pressed. *)
Definition panel_idle : World :=
  panel no_keyboard (mk_touch None []) (pointer_over None 0 0 0)
    [launcher_instance 0 0; launcher_instance 0 0] [].

(** The pointer hovers over item 0. *)
Definition panel_hover (steps val depth : Z) : World :=
  panel no_keyboard (mk_touch None []) (pointer_over (Some O) steps val depth)
    [launcher_instance 1 depth; launcher_instance 0 0] [].

(** [panel_idle] after a touch-down with id 7 on item 0: the touchpoint is
    allocated and the press count is 1; the list of touchpoints is as it
    was, empty. *)
Definition panel_down : World :=
  mk_world
    (mk_seat 9%nat no_keyboard (mk_touch None []) (pointer_over None 0 0 0))
    [mk_item_instance launcher O 0 1 0 0 true true; launcher_instance 0 0]
    [Some (mk_touchpoint 7 (Some O) O)]
    true false [EvScheduleFrame (Some O)].

Definition panel_keyboard : World :=
  panel bound_keyboard (mk_touch None []) (pointer_over None 0 0 0)
    [launcher_instance 0 0; launcher_instance 0 0] [].

(** * Properties *)

(** ** Conversions that change nothing *)

Lemma u32_range z : is_u32 (u32 z).
Proof. unfold is_u32, u32, modulus32. apply Z.mod_pos_bound. lia. Qed.

Lemma u32_small z : is_u32 z -> u32 z = z.
Proof. unfold is_u32, u32. intros H. apply Z.mod_small. exact H. Qed.

Lemma s32_range z : is_s32 (s32 z).
Proof.
  unfold is_s32, s32, modulus32, half32.
  pose proof (Z.mod_pos_bound (z + 2 ^ 31) (2 ^ 32)). lia.
Qed.

Lemma s32_small z : is_s32 z -> s32 z = z.
Proof.
  unfold is_s32, s32, modulus32, half32. intros H.
  rewrite Z.mod_small; lia.
Qed.

(** ** The counter *)

Lemma counter_safe_subtract_le (c n : Z) :
  is_u32 c -> 0 <= n -> 0 <= counter_safe_subtract c n <= c.
Proof.
  unfold counter_safe_subtract, is_u32, modulus32. intros Hc Hn.
  destruct (Z.gtb_spec n c) as [Hgt | Hle]; [lia |].
  rewrite u32_small; [lia |]. unfold is_u32, modulus32. lia.
Qed.

Lemma counter_safe_subtract_u32 (c n : Z) :
  is_u32 c -> 0 <= n -> is_u32 (counter_safe_subtract c n).
Proof.
  intros Hc Hn. pose proof (counter_safe_subtract_le c n Hc Hn).
  unfold is_u32 in *. lia.
Qed.

Lemma counter_safe_subtract_max (c n : Z) :
  is_u32 c -> 0 <= n -> counter_safe_subtract c n = Z.max 0 (c - n).
Proof.
  unfold counter_safe_subtract, is_u32, modulus32. intros Hc Hn.
  destruct (Z.gtb_spec n c) as [Hgt | Hle]; [lia |].
  rewrite u32_small; [lia |]. unfold is_u32, modulus32. lia.
Qed.

Lemma counter_safe_subtract_fold (ns : list Z) (c : Z) :
  is_u32 c -> Forall is_u32 ns ->
  0 <= fold_left counter_safe_subtract ns c <= c.
Proof.
  revert c. induction ns as [| n ns IH]; intros c Hc Hns; simpl.
  - unfold is_u32 in Hc. lia.
  - inversion Hns as [| ? ? Hn Hns']; subst.
    assert (Hn0 : 0 <= n) by (unfold is_u32 in Hn; lia).
    pose proof (counter_safe_subtract_le c n Hc Hn0) as Hle.
    specialize (IH (counter_safe_subtract c n)
                  (counter_safe_subtract_u32 c n Hc Hn0) Hns').
    lia.
Qed.

(** C8. On 32-bit unsigned values, [counter_safe_subtract c n] is 0 when
    [n > c] and [c - n] otherwise; and along every sequence of calls the
    counter stays between 0 and its first value: it does not wrap below
    zero. *)
Theorem counter_safe_subtract_saturates (c : Z) (ns : list Z) :
  is_u32 c -> Forall is_u32 ns ->
  (forall n, is_u32 n ->
     counter_safe_subtract c n = if n >? c then 0 else c - n)
  /\ (forall k, 0 <= fold_left counter_safe_subtract (take k ns) c <= c).
Proof.
  intros Hc Hns. split.
  - intros n Hn. unfold counter_safe_subtract.
    destruct (Z.gtb_spec n c) as [Hgt | Hle]; [reflexivity |].
    apply u32_small. unfold is_u32, modulus32 in *. lia.
  - intros k. apply counter_safe_subtract_fold; [exact Hc |].
    apply Forall_take. exact Hns.
Qed.

(** ** The command table *)


Lemma find_item_command_Some cmds type mods special allow i :
  find_item_command cmds type mods special allow = Some i ->
  exists c, cmds !! i = Some c
            /\ command_matches c type mods special allow = true.
Proof.
  revert i. induction cmds as [| c cmds IH]; intros i; simpl; [discriminate |].
  destruct (command_matches c type mods special allow) eqn:Hc.
  - intros [= <-]. exists c. split; [reflexivity | exact Hc].
  - destruct (find_item_command cmds type mods special allow) as [j |] eqn:Hj;
      simpl; [| discriminate].
    intros [= <-]. destruct (IH j eq_refl) as (c' & Hl & Hm).
    exists c'. split; assumption.
Qed.

Lemma find_item_command_None cmds type mods special allow :
  find_item_command cmds type mods special allow = None ->
  Forall (fun c => command_matches c type mods special allow = false) cmds.
Proof.
  induction cmds as [| c cmds IH]; simpl; intros H; [constructor |].
  destruct (command_matches c type mods special allow) eqn:Hc; [discriminate |].
  destruct (find_item_command cmds type mods special allow); [discriminate |].
  constructor; [exact Hc | apply IH; reflexivity].
Qed.


(** A binding that is new to the table goes to its head, where
    [find_item_command] meets it first. *)
Lemma parse_meta_action_head cmds i command r :
  parse_meta_action cmds i command = AddTrue r \/
  parse_meta_action cmds i command = AddUndefined r ->
  exists f, r = alter f i cmds
            /\ forall c, cmd_type (f c) = cmd_type c
                         /\ cmd_modifiers (f c) = cmd_modifiers c
                         /\ cmd_special (f c) = cmd_special c.
Proof.
  assert (Hplain : forall r',
    AddTrue (alter (set_command (Some command)) i
               (alter (set_action META_ACTION_NONE) i cmds)) = AddTrue r' \/
    AddTrue (alter (set_command (Some command)) i
               (alter (set_action META_ACTION_NONE) i cmds)) = AddUndefined r' ->
    exists f, r' = alter f i cmds
              /\ forall c, cmd_type (f c) = cmd_type c
                           /\ cmd_modifiers (f c) = cmd_modifiers c
                           /\ cmd_special (f c) = cmd_special c).
  { intros r' [[= <-] | [=]].
    exists (fun c => set_command (Some command) (set_action META_ACTION_NONE c)).
    split; [| intros c; repeat split].
    rewrite list_alter_alter_eq. reflexivity. }
  assert (Hmeta : forall acts r0 r',
    match_meta_action acts cmds i command = Some r0 ->
    r0 = AddTrue r' \/ r0 = AddUndefined r' ->
    exists f, r' = alter f i cmds
              /\ forall c, cmd_type (f c) = cmd_type c
                           /\ cmd_modifiers (f c) = cmd_modifiers c
                           /\ cmd_special (f c) = cmd_special c).
  { induction acts as [| [name act] acts IH]; intros r0 r'; simpl; [discriminate |].
    destruct (string_starts_with command name); [| apply IH].
    destruct (String.length command =? String.length name)%nat.
    - intros [= <-] [[= <-] | [=]].
      exists (fun c => set_command None (set_action act c)).
      split; [| intros c; repeat split].
      rewrite list_alter_alter_eq. reflexivity.
    - destruct (string_offset command (String.length name)) as [rest |].
      + intros [= <-] [[= <-] | [=]].
        exists (fun c => set_command (Some rest) (set_action act c)).
        split; [| intros c; repeat split].
        rewrite list_alter_alter_eq. reflexivity.
      + intros [= <-] [[=] | [= <-]].
        exists (set_action act). split; [reflexivity |]. intros c; repeat split. }
  unfold parse_meta_action.
  destruct command as [| a command']; [apply Hplain |].
  destruct (Ascii.eqb_spec a "@"%char) as [-> | Hne].
  - destruct (match_meta_action actions cmds i (String "@" command')) as [r0 |] eqn:Hm.
    + intros H. eapply Hmeta; [exact Hm | exact H].
    + apply Hplain.
  - intros H.
    assert (Hp : parse_meta_action cmds i (String a command')
                 = AddTrue (alter (set_command (Some (String a command'))) i
                              (alter (set_action META_ACTION_NONE) i cmds))).
    { unfold parse_meta_action.
      destruct a as [[] [] [] [] [] [] [] []]; try reflexivity.
      exfalso. apply Hne. reflexivity. }
    unfold parse_meta_action in Hp. rewrite Hp in H. apply Hplain. exact H.
Qed.

Lemma item_add_command_new cmds command type mods special t :
  find_item_command cmds type mods special false = None ->
  item_add_command true cmds command type mods special = AddTrue t ->
  exists e, t = e :: cmds /\ cmd_type e = type
            /\ cmd_modifiers e = mods /\ cmd_special e = special.
Proof.
  intros Hnone Hadd. unfold item_add_command in Hadd. rewrite Hnone in Hadd.
  destruct (parse_meta_action_head _ O command t (or_introl Hadd))
    as (f & -> & Hf).
  destruct (Hf (mk_command type META_ACTION_NONE None mods special))
    as (Ht & Hm & Hs).
  eexists. split; [reflexivity |]. simpl in *. auto.
Qed.

(** An exact binding added after every other binding is the one
    [find_item_command] returns. *)
Lemma exact_added_last_wins cmds command type mods special t :
  find_item_command cmds type mods special false = None ->
  item_add_command true cmds command type mods special = AddTrue t ->
  exists e, lookup_item_command (mk_item TYPE_BUTTON 0 t None) type mods special true
            = Some e
            /\ cmd_type e = type /\ cmd_modifiers e = mods
            /\ cmd_special e = special.
Proof.
  intros Hnone Hadd.
  destruct (item_add_command_new _ _ _ _ _ _ Hnone Hadd) as (e & -> & Ht & Hm & Hs).
  exists e. split; [| auto].
  unfold lookup_item_command. simpl. unfold command_matches.
  rewrite (bool_decide_eq_true_2 _ Ht), Hm, Hs, !Z.eqb_refl. reflexivity.
Qed.

(** A universal binding added after an exact one hides it: every
    interaction other than a scroll resolves to the universal binding. *)
Lemma universal_added_last_wins cmds command t type mods special :
  find_item_command cmds INTERACTION_UNIVERSAL 0 0 false = None ->
  item_add_command true cmds command INTERACTION_UNIVERSAL 0 0 = AddTrue t ->
  type <> INTERACTION_MOUSE_SCROLL ->
  exists u, lookup_item_command (mk_item TYPE_BUTTON 0 t None) type mods special true
            = Some u
            /\ cmd_type u = INTERACTION_UNIVERSAL.
Proof.
  intros Hnone Hadd Hscroll.
  destruct (item_add_command_new _ _ _ _ _ _ Hnone Hadd) as (u & -> & Ht & _).
  exists u. split; [| exact Ht].
  unfold lookup_item_command. simpl. unfold command_matches.
  rewrite (bool_decide_eq_true_2 _ Ht), (bool_decide_eq_false_2 _ Hscroll).
  simpl. rewrite orb_true_r. reflexivity.
Qed.


(** ** Meta actions *)

Lemma strncmp_eq_refl_append (name rest : string) :
  strncmp_eq name (name ++ rest)%string (String.length name) = true.
Proof.
  induction name as [| a name IH]; simpl; [reflexivity |].
  rewrite Ascii.eqb_refl. exact IH.
Qed.

Lemma length_append (a b : string) :
  String.length (a ++ b)%string = (String.length a + String.length b)%nat.
Proof. induction a as [| x a IH]; simpl; [reflexivity | rewrite IH; reflexivity]. Qed.

(** On a string that does begin with [name], [string_starts_with] is true. *)
Lemma string_starts_with_append (name rest : string) :
  string_starts_with (name ++ rest)%string name = true.
Proof.
  unfold string_starts_with. rewrite length_append.
  destruct (Nat.ltb_spec (String.length name)
              (String.length name + String.length rest)) as [Hlt | Hge].
  - apply strncmp_eq_refl_append.
  - replace (String.length name + String.length rest)%nat
      with (String.length name) by lia.
    apply strncmp_eq_refl_append.
Qed.

Lemma string_offset_append (name rest : string) :
  string_offset (name ++ rest)%string (String.length name) = Some rest.
Proof. induction name as [| a name IH]; simpl; [reflexivity | exact IH]. Qed.

Lemma match_one_meta_action name act acts cmds i rest :
  match_meta_action ((name, act) :: acts) cmds i (name ++ rest)%string
  = Some (AddTrue (alter (set_command (stored_rest rest)) i
                     (alter (set_action act) i cmds))).
Proof.
  simpl. rewrite string_starts_with_append, length_append, string_offset_append.
  destruct rest as [| a rest]; simpl.
  - rewrite Nat.add_0_r, Nat.eqb_refl. reflexivity.
  - destruct (Nat.eqb_spec (String.length name + S (String.length rest))
                (String.length name)) as [Heq | _]; [lia | reflexivity].
Qed.

Lemma match_meta_action_skip name act acts cmds i command :
  string_starts_with command name = false ->
  match_meta_action ((name, act) :: acts) cmds i command
  = match_meta_action acts cmds i command.
Proof. intros H. simpl. rewrite H. reflexivity. Qed.

Ltac starts_with_differs :=
  unfold string_starts_with; rewrite length_append; simpl;
  match goal with
  | |- context [Nat.ltb ?a ?b] => destruct (Nat.ltb a b)
  end; reflexivity.

(** A string that begins with one of the four names takes that meta action,
    and what follows the name is its command: none when nothing follows. *)
Lemma parse_meta_action_prefix name act rest cmds i :
  In (name, act) actions ->
  parse_meta_action cmds i (name ++ rest)%string
  = AddTrue (alter (set_command (stored_rest rest)) i
               (alter (set_action act) i cmds)).
Proof.
  intros Hin. unfold actions in Hin. simpl in Hin.
  assert (H1 : forall r, string_starts_with ("@toplevel-close" ++ r)%string
                           "@toplevel-activate" = false) by (intros; starts_with_differs).
  assert (H2 : forall r, string_starts_with ("@reload" ++ r)%string
                           "@toplevel-activate" = false) by (intros; starts_with_differs).
  assert (H3 : forall r, string_starts_with ("@reload" ++ r)%string
                           "@toplevel-close" = false) by (intros; starts_with_differs).
  assert (H4 : forall r, string_starts_with ("@exit" ++ r)%string
                           "@toplevel-activate" = false) by (intros; starts_with_differs).
  assert (H5 : forall r, string_starts_with ("@exit" ++ r)%string
                           "@toplevel-close" = false) by (intros; starts_with_differs).
  assert (H6 : forall r, string_starts_with ("@exit" ++ r)%string
                           "@reload" = false) by (intros; starts_with_differs).
  assert (Hat : forall s,
    parse_meta_action cmds i (String "@" s)
    = match match_meta_action actions cmds i (String "@" s) with
      | Some r => r
      | None => AddTrue (alter (set_command (Some (String "@" s))) i
                           (alter (set_action META_ACTION_NONE) i cmds))
      end) by reflexivity.
  pose proof (fun name act acts => match_one_meta_action name act acts cmds i rest)
    as Hone.
  destruct Hin as [[= <- <-] | [[= <- <-] | [[= <- <-] | [[= <- <-] | []]]]].
  - specialize (Hone "@toplevel-activate").
    specialize (Hat ("toplevel-activate" ++ rest)%string).
    unfold actions in *. cbn [append] in *. rewrite Hat, Hone. reflexivity.
  - specialize (Hone "@toplevel-close").
    specialize (Hat ("toplevel-close" ++ rest)%string). specialize (H1 rest).
    unfold actions in *. cbn [append] in *. rewrite Hat.
    rewrite match_meta_action_skip by exact H1. rewrite Hone. reflexivity.
  - specialize (Hone "@reload"). specialize (Hat ("reload" ++ rest)%string).
    specialize (H2 rest). specialize (H3 rest).
    unfold actions in *. cbn [append] in *. rewrite Hat.
    rewrite match_meta_action_skip by exact H2.
    rewrite match_meta_action_skip by exact H3. rewrite Hone. reflexivity.
  - specialize (Hone "@exit"). specialize (Hat ("exit" ++ rest)%string).
    specialize (H4 rest). specialize (H5 rest). specialize (H6 rest).
    unfold actions in *. cbn [append] in *. rewrite Hat.
    rewrite match_meta_action_skip by exact H4.
    rewrite match_meta_action_skip by exact H5.
    rewrite match_meta_action_skip by exact H6. rewrite Hone. reflexivity.
Qed.

Lemma strncmp_eq_min (a b : string) :
  strncmp_eq a b (Nat.min (String.length a) (String.length b)) = true
  <-> (exists r, b = (a ++ r)%string) \/ (exists r, a = (b ++ r)%string).
Proof.
  revert b. induction a as [| x a IH]; intros b.
  - simpl. split; [| reflexivity]. intros _. left. exists b. reflexivity.
  - destruct b as [| y b].
    + simpl. split; [| reflexivity]. intros _. right. exists (String x a). reflexivity.
    + simpl. rewrite andb_true_iff, IH. split.
      * intros [Hxy H]. apply Ascii.eqb_eq in Hxy. subst y.
        destruct H as [[r ->] | [r ->]]; [left | right]; exists r; reflexivity.
      * intros [[r [= -> ->]] | [r [= -> ->]]]; (split; [apply Ascii.eqb_refl |]);
          [left | right]; exists r; reflexivity.
Qed.

(** What [string_starts_with] decides: [str] begins with [prefix], or [str]
    is itself a beginning of [prefix]. *)
Lemma string_starts_with_iff (str prefix : string) :
  string_starts_with str prefix = true
  <-> (exists r, str = (prefix ++ r)%string) \/ (exists r, prefix = (str ++ r)%string).
Proof.
  unfold string_starts_with.
  replace (if (String.length prefix <? String.length str)%nat
           then String.length prefix else String.length str)
    with (Nat.min (String.length prefix) (String.length str)).
  - apply strncmp_eq_min.
  - destruct (Nat.ltb_spec (String.length prefix) (String.length str)); lia.
Qed.

(** A string that [string_starts_with] matches against none of the four
    names, or whose first character is not an at sign, is stored whole, as
    a command to run. *)
Lemma parse_meta_action_plain cmds i command :
  (forall name act, In (name, act) actions ->
     string_starts_with command name = false)
  \/ (forall s, command <> String "@" s) ->
  parse_meta_action cmds i command
  = AddTrue (alter (set_command (Some command)) i
               (alter (set_action META_ACTION_NONE) i cmds)).
Proof.
  intros H. destruct command as [| a s]; [reflexivity |].
  destruct (Ascii.eqb_spec a "@"%char) as [-> | Hne].
  - destruct H as [H | H]; [| exfalso; apply (H s); reflexivity].
    assert (Hat : parse_meta_action cmds i (String "@" s)
      = match match_meta_action actions cmds i (String "@" s) with
        | Some r => r
        | None => AddTrue (alter (set_command (Some (String "@" s))) i
                             (alter (set_action META_ACTION_NONE) i cmds))
        end) by reflexivity.
    rewrite Hat. unfold actions in *.
    rewrite !match_meta_action_skip by (eapply H; simpl; eauto 6).
    reflexivity.
  - unfold parse_meta_action.
    destruct a as [[] [] [] [] [] [] [] []]; try reflexivity.
    exfalso. apply Hne. reflexivity.
Qed.

(** ** Writes through pointers *)

Lemma update_instance_Some ii f w inst :
  instances w !! ii = Some inst ->
  update_instance ii f w
  = Some (set_instances (<[ii := f inst]> (instances w)) w).
Proof. intros H. unfold update_instance. rewrite H. reflexivity. Qed.

Lemma update_instance_inv ii f w w1 :
  update_instance ii f w = Some w1 ->
  exists inst, instances w !! ii = Some inst
               /\ w1 = set_instances (<[ii := f inst]> (instances w)) w.
Proof.
  unfold update_instance. destruct (instances w !! ii) as [inst |]; simpl;
    [| discriminate].
  intros [= <-]. exists inst. split; reflexivity.
Qed.

Lemma lookup_insert_instance (l : list Lava_item_instance) ii x inst :
  l !! ii = Some inst -> <[ii := x]> l !! ii = Some x.
Proof.
  intros H. apply list_lookup_insert_eq. eapply lookup_lt_Some. exact H.
Qed.

(** ** Releasing the pointer *)

(** What [seat_release_pointer] does when an item instance is hovered. *)
Lemma seat_release_pointer_hovered (w : World) (ii : ptr)
    (inst : Lava_item_instance) :
  item_instance (ptr_state w) = Some ii ->
  instances w !! ii = Some inst ->
  exists w' inst',
    seat_release_pointer w = Some w'
    /\ instances w' !! ii = Some inst'
    /\ indicator inst' = counter_safe_subtract (indicator inst) 1
    /\ active_indicator inst'
       = counter_safe_subtract (active_indicator inst) (u32 (click (ptr_state w)))
    /\ dirty inst' = true
    /\ (forall j, j <> ii -> instances w' !! j = instances w !! j)
    /\ In (EvScheduleFrame (instance (ptr_state w))) (trace w')
    /\ item_instance (ptr_state w') = None
    /\ click (ptr_state w') = 0.
Proof.
  clear. intros Hhover Hinst. unfold seat_release_pointer. rewrite Hhover.
  rewrite (update_instance_Some _ _ _ _ Hinst).
  destruct w as [[ws k t [wp se px py bar hov ds lt v cl [ct cs cth ci cw]]]
                   insts hp lp rl tr].
  unfold seat_pointer_unset_cursor, destroy_null, ptr_state in Hhover, Hinst |- *.
  simpl in Hhover, Hinst |- *.
  destruct cth, cs, wp; simpl; eexists _, _;
    (split; [reflexivity |]); simpl;
    (split; [eapply lookup_insert_instance; exact Hinst |]);
    (repeat split; try reflexivity);
    try (intros j Hj; apply list_lookup_insert_ne; congruence);
    rewrite ?in_app_iff; simpl; tauto.
Qed.

(** The keyboard and the touchpoints are released without a write to the
    pointer state or to a hover count. *)
Lemma seat_release_keyboard_frame (w : World) :
  ptr_state (seat_release_keyboard w) = ptr_state w
  /\ instances (seat_release_keyboard w) = instances w
  /\ tch (seat_release_keyboard w) = tch w
  /\ heap (seat_release_keyboard w) = heap w.
Proof.
  destruct w as [[ws [wk kc km ks md] t p] insts hp lp rl tr].
  unfold seat_release_keyboard, destroy_null, kbd. simpl.
  destruct wk, kc, km, ks; simpl; repeat split; reflexivity.
Qed.

Lemma insert_same_indicator (l : list Lava_item_instance) i inst x :
  l !! i = Some inst -> indicator x = indicator inst ->
  indicator <$> <[i := x]> l = indicator <$> l.
Proof.
  intros Hl Hx. rewrite list_fmap_insert. apply list_insert_id.
  rewrite list_lookup_fmap, Hl, Hx. reflexivity.
Qed.

Lemma destroy_touchpoint_frame tp (w w1 : World) :
  destroy_touchpoint tp w = Some w1 ->
  ptr_state w1 = ptr_state w
  /\ indicator <$> instances w1 = indicator <$> instances w.
Proof.
  unfold destroy_touchpoint.
  destruct (mjoin (heap w !! tp)) as [t |]; simpl; [| discriminate].
  destruct (update_instance (tp_item_instance t) _ w) as [w2 |] eqn:Hup; simpl;
    [| discriminate].
  intros [= <-]. apply update_instance_inv in Hup. destruct Hup as (inst & Hl & ->).
  simpl. split; [reflexivity |].
  eapply insert_same_indicator; [exact Hl | reflexivity].
Qed.

Lemma destroy_touchpoints_frame l (w w1 : World) :
  destroy_touchpoints l w = Some w1 ->
  ptr_state w1 = ptr_state w
  /\ indicator <$> instances w1 = indicator <$> instances w.
Proof.
  revert w. induction l as [| tp l IH]; intros w; simpl.
  - intros [= <-]. split; reflexivity.
  - destruct (destroy_touchpoint tp w) as [w2 |] eqn:Hd; simpl; [| discriminate].
    intros H. apply IH in H. apply destroy_touchpoint_frame in Hd.
    destruct H as [-> ->], Hd as [-> ->]. split; reflexivity.
Qed.

Lemma seat_release_touch_frame (w w1 : World) :
  seat_release_touch w = Some w1 ->
  ptr_state w1 = ptr_state w
  /\ indicator <$> instances w1 = indicator <$> instances w.
Proof.
  unfold seat_release_touch, destroy_all_touchpoints.
  destruct (destroy_touchpoints (touchpoints (tch w)) w) as [w2 |] eqn:Hd; simpl;
    [| discriminate].
  intros [= <-]. apply destroy_touchpoints_frame in Hd. destruct Hd as [<- <-].
  unfold destroy_null. destruct (wl_touch (tch w2)); split; reflexivity.
Qed.

(** The touchpoints are released with every count staying a value of its
    type. *)
Lemma destroy_touchpoint_counts tp (w w1 : World) :
  destroy_touchpoint tp w = Some w1 -> uint32_counts w -> uint32_counts w1.
Proof.
  unfold destroy_touchpoint, uint32_counts.
  destruct (mjoin (heap w !! tp)) as [t |]; simpl; [| discriminate].
  destruct (update_instance (tp_item_instance t) _ w) as [w2 |] eqn:Hup; simpl;
    [| discriminate].
  intros [= <-] HF. apply update_instance_inv in Hup. destruct Hup as (inst & Hl & ->).
  simpl. apply Forall_insert; [exact HF |].
  destruct (Forall_lookup_1 _ _ _ _ HF Hl) as [Hi Ha]. simpl.
  split; [exact Hi | apply counter_safe_subtract_u32; [exact Ha | lia]].
Qed.

Lemma destroy_touchpoints_counts l (w w1 : World) :
  destroy_touchpoints l w = Some w1 -> uint32_counts w -> uint32_counts w1.
Proof.
  revert w. induction l as [| tp l IH]; intros w; simpl.
  - intros [= <-] H. exact H.
  - destruct (destroy_touchpoint tp w) as [w2 |] eqn:Hd; simpl; [| discriminate].
    intros H HF. apply (IH w2 H). eapply destroy_touchpoint_counts; eassumption.
Qed.

Lemma seat_release_touch_counts (w w1 : World) :
  seat_release_touch w = Some w1 -> uint32_counts w -> uint32_counts w1.
Proof.
  unfold seat_release_touch, destroy_all_touchpoints.
  destruct (destroy_touchpoints (touchpoints (tch w)) w) as [w2 |] eqn:Hd; simpl;
    [| discriminate].
  intros [= <-] HF. apply destroy_touchpoints_counts in Hd; [| exact HF].
  unfold uint32_counts, destroy_null in *. destruct (wl_touch (tch w2)); exact Hd.
Qed.

(** With no touchpoint in the list, [seat_release_touch] returns and leaves
    the item instances and the pointer state as they are. *)
Lemma seat_release_touch_empty (w : World) :
  touchpoints (tch w) = [] ->
  exists w1,
    seat_release_touch w = Some w1
    /\ instances w1 = instances w
    /\ ptr_state w1 = ptr_state w.
Proof.
  intros Hnil. unfold seat_release_touch, destroy_all_touchpoints.
  rewrite Hnil. simpl. eexists. split; [reflexivity |].
  unfold destroy_null. destruct (wl_touch (tch w)); split; reflexivity.
Qed.

(** [seat_release_pointer] on counts that are values of their type: the
    saturating subtractions written out. *)
Lemma seat_release_pointer_counts (w : World) (ii : ptr)
    (inst : Lava_item_instance) :
  item_instance (ptr_state w) = Some ii ->
  instances w !! ii = Some inst ->
  is_u32 (indicator inst) ->
  is_u32 (active_indicator inst) ->
  exists w' inst',
    seat_release_pointer w = Some w'
    /\ instances w' !! ii = Some inst'
    /\ indicator inst' = Z.max 0 (indicator inst - 1)
    /\ active_indicator inst'
       = Z.max 0 (active_indicator inst - u32 (click (ptr_state w)))
    /\ dirty inst' = true
    /\ (forall j, j <> ii -> instances w' !! j = instances w !! j)
    /\ In (EvScheduleFrame (instance (ptr_state w))) (trace w')
    /\ item_instance (ptr_state w') = None
    /\ click (ptr_state w') = 0.
Proof.
  intros Hhover Hinst Hi Ha.
  destruct (seat_release_pointer_hovered w ii inst Hhover Hinst)
    as (w' & inst' & Hrel & Hl & Hind & Hact & Hd & Hother & Hsched & Hnone & Hclick).
  exists w', inst'.
  rewrite (counter_safe_subtract_max _ _ Hi) in Hind by lia.
  rewrite (counter_safe_subtract_max _ _ Ha) in Hact
    by (pose proof (u32_range (click (ptr_state w))) as Hu; unfold is_u32 in Hu; lia).
  repeat (split; [assumption |]). assumption.
Qed.

(** [destroy_seat] from the state in which [seat_release_touch] leaves the
    seat. *)
Lemma destroy_seat_hovered (w w1 : World) (ii : ptr)
    (inst1 : Lava_item_instance) :
  seat_release_touch (seat_release_keyboard w) = Some w1 ->
  item_instance (ptr_state w1) = Some ii ->
  instances w1 !! ii = Some inst1 ->
  is_u32 (indicator inst1) ->
  is_u32 (active_indicator inst1) ->
  exists w' inst',
    destroy_seat w = Some w'
    /\ instances w' !! ii = Some inst'
    /\ indicator inst' = Z.max 0 (indicator inst1 - 1)
    /\ active_indicator inst'
       = Z.max 0 (active_indicator inst1 - u32 (click (ptr_state w1)))
    /\ dirty inst' = true
    /\ In (EvScheduleFrame (instance (ptr_state w1))) (trace w')
    /\ item_instance (ptr_state w') = None
    /\ click (ptr_state w') = 0.
Proof.
  intros Htouch Hhover1 Hl1 Hi Ha.
  destruct (seat_release_pointer_counts w1 ii inst1 Hhover1 Hl1 Hi Ha)
    as (w' & inst' & Hrel & Hl & Hind & Hact & Hd & _ & Hsched & Hnone & Hclick).
  exists (emit (EvDestroy "wl_seat_release" (wl_seat (seat w'))) w'), inst'.
  unfold destroy_seat. rewrite Htouch. simpl. rewrite Hrel. simpl.
  repeat (split; [first [reflexivity | assumption] |]).
  split; [rewrite in_app_iff; left; exact Hsched |].
  split; assumption.
Qed.

(** C10, as the code has it. With an item instance hovered and the counts
    values of their type, [seat_release_pointer] sets the hover count to
    max (0, hover count - 1) and the press count to max (0, press count -
    press depth), the depth read as a [uint32_t]; it marks the instance
    dirty, leaves the other instances alone, schedules a frame and leaves
    the seat with no hovered item and press depth 0. So a hover count of
    h + 1 and a press count of p + depth come out as h and p. [destroy_seat]
    does the same after the keyboard and the touchpoints are released, to
    the press count these leave behind; with no touchpoint in the list that
    is the press count of the start. *)
Theorem seat_release_pointer_unwinds_hover (w : World) (ii : ptr)
    (inst : Lava_item_instance) :
  item_instance (ptr_state w) = Some ii ->
  instances w !! ii = Some inst ->
  uint32_counts w ->
  (exists w' inst',
     seat_release_pointer w = Some w'
     /\ instances w' !! ii = Some inst'
     /\ indicator inst' = Z.max 0 (indicator inst - 1)
     /\ active_indicator inst'
        = Z.max 0 (active_indicator inst - u32 (click (ptr_state w)))
     /\ (forall h p,
           0 <= h -> 0 <= p ->
           indicator inst = h + 1 ->
           active_indicator inst = p + u32 (click (ptr_state w)) ->
           indicator inst' = h /\ active_indicator inst' = p)
     /\ dirty inst' = true
     /\ (forall j, j <> ii -> instances w' !! j = instances w !! j)
     /\ In (EvScheduleFrame (instance (ptr_state w))) (trace w')
     /\ item_instance (ptr_state w') = None
     /\ click (ptr_state w') = 0)
  /\ (forall w1,
        seat_release_touch (seat_release_keyboard w) = Some w1 ->
        exists w' inst1 inst',
          destroy_seat w = Some w'
          /\ instances w1 !! ii = Some inst1
          /\ instances w' !! ii = Some inst'
          /\ indicator inst' = Z.max 0 (indicator inst - 1)
          /\ active_indicator inst'
             = Z.max 0 (active_indicator inst1 - u32 (click (ptr_state w)))
          /\ dirty inst' = true
          /\ In (EvScheduleFrame (instance (ptr_state w))) (trace w')
          /\ item_instance (ptr_state w') = None
          /\ click (ptr_state w') = 0)
  /\ (touchpoints (tch w) = [] ->
      exists w' inst',
        destroy_seat w = Some w'
        /\ instances w' !! ii = Some inst'
        /\ indicator inst' = Z.max 0 (indicator inst - 1)
        /\ active_indicator inst'
           = Z.max 0 (active_indicator inst - u32 (click (ptr_state w)))
        /\ dirty inst' = true
        /\ In (EvScheduleFrame (instance (ptr_state w))) (trace w')
        /\ item_instance (ptr_state w') = None
        /\ click (ptr_state w') = 0).
Proof.
  intros Hhover Hinst Hcounts.
  destruct (Forall_lookup_1 _ _ _ _ Hcounts Hinst) as [Hi Ha].
  destruct (seat_release_keyboard_frame w) as (Hkp & Hki & Hkt & _).
  split; [| split].
  - destruct (seat_release_pointer_counts w ii inst Hhover Hinst Hi Ha)
      as (w' & inst' & Hrel & Hl & Hind & Hact & Hd & Hother & Hsched & Hnone
          & Hclick).
    exists w', inst'. repeat (split; [assumption |]).
    split; [| repeat (split; [assumption |]); assumption].
    intros h p Hh Hp Hhover_count Hpress_count.
    rewrite Hind, Hact, Hhover_count, Hpress_count. lia.
  - intros w1 Htouch.
    destruct (seat_release_touch_frame _ _ Htouch) as (Htp & Hti).
    rewrite Hkp in Htp. rewrite Hki in Hti.
    assert (Hl1 : exists inst1, instances w1 !! ii = Some inst1
                                /\ indicator inst1 = indicator inst).
    { pose proof (f_equal (fun l : list Z => l !! ii) Hti) as Heq.
      cbv beta in Heq. rewrite !list_lookup_fmap, Hinst in Heq. simpl in Heq.
      destruct (instances w1 !! ii) as [inst1 |]; simpl in Heq; [| discriminate].
      exists inst1. split; [reflexivity | congruence]. }
    destruct Hl1 as (inst1 & Hl1 & Hind1).
    assert (Hcounts1 : uint32_counts w1).
    { apply (seat_release_touch_counts _ _ Htouch).
      unfold uint32_counts. rewrite Hki. exact Hcounts. }
    destruct (Forall_lookup_1 _ _ _ _ Hcounts1 Hl1) as [Hi1 Ha1].
    assert (Hhover1 : item_instance (ptr_state w1) = Some ii)
      by (rewrite Htp; exact Hhover).
    destruct (destroy_seat_hovered w w1 ii inst1 Htouch Hhover1 Hl1 Hi1 Ha1)
      as (w' & inst' & Hrel & Hl & Hind & Hact & Hd & Hsched & Hnone & Hclick).
    exists w', inst1, inst'. rewrite Htp in Hact, Hsched. rewrite Hind1 in Hind.
    repeat (split; [assumption |]). assumption.
  - intros Hnil.
    destruct (seat_release_touch_empty (seat_release_keyboard w))
      as (w1 & Htouch & Hinsts & Hptr); [rewrite Hkt; exact Hnil |].
    rewrite Hkp in Hptr. rewrite Hki in Hinsts.
    assert (Hl1 : instances w1 !! ii = Some inst) by (rewrite Hinsts; exact Hinst).
    assert (Hhover1 : item_instance (ptr_state w1) = Some ii)
      by (rewrite Hptr; exact Hhover).
    destruct (destroy_seat_hovered w w1 ii inst Htouch Hhover1 Hl1 Hi Ha)
      as (w' & inst' & Hrel & Hl & Hind & Hact & Hd & Hsched & Hnone & Hclick).
    exists w', inst'. rewrite Hptr in Hact, Hsched.
    repeat (split; [assumption |]). assumption.
Qed.

(** ** Touchpoints *)

Lemma touchpoint_in_list_found l h id tp :
  touchpoint_in_list l h id = Some (Some tp) ->
  In tp l /\ exists t, h !! tp = Some (Some t) /\ tp_id t = id.
Proof.
  induction l as [| a l IH]; simpl; [discriminate |].
  destruct (h !! a) as [[t |] |] eqn:Ha; simpl; try discriminate.
  destruct (Z.eqb_spec (tp_id t) id) as [Heq | Hne].
  - intros [= <-]. split; [left; reflexivity |]. exists t. split; assumption.
  - intros H. destruct (IH H) as (Hin & Ht). split; [right; exact Hin | exact Ht].
Qed.

(** What [destroy_touchpoint] does to a live touchpoint. *)
Lemma destroy_touchpoint_live tp (w : World) t inst :
  heap w !! tp = Some (Some t) ->
  instances w !! tp_item_instance t = Some inst ->
  exists w' inst',
    destroy_touchpoint tp w = Some w'
    /\ ~ In tp (touchpoints (tch w'))
    /\ heap w' !! tp = Some None
    /\ instances w' !! tp_item_instance t = Some inst'
    /\ active_indicator inst' = counter_safe_subtract (active_indicator inst) 1
    /\ indicator inst' = indicator inst
    /\ dirty inst' = true
    /\ trace w' = trace w ++ [EvScheduleFrame (tp_instance t)]
    /\ ctx_loop w' = ctx_loop w /\ ctx_reload w' = ctx_reload w.
Proof.
  intros Hheap Hinst. unfold destroy_touchpoint. rewrite Hheap. simpl.
  rewrite (update_instance_Some _ _ _ _ Hinst). simpl.
  eexists _, _. split; [reflexivity |]. simpl.
  split; [apply remove_In |].
  split; [apply list_lookup_insert_eq; eapply lookup_lt_Some; exact Hheap |].
  split; [eapply lookup_insert_instance; exact Hinst |].
  repeat split; reflexivity.
Qed.

(** The branch of [touch_handle_motion] past the NULL check, which needs a
    touchpoint in the list: coordinates that resolve to another item
    instance than the one of the touchpoint, or to none, end in
    [destroy_touchpoint], with no interaction and no command. *)
Lemma touch_handle_motion_linked (w : World) (id fx fy : Z) (tp : ptr)
    (t : Lava_touchpoint) (inst : Lava_item_instance) :
  touchpoint_from_id w id = Some (Some tp) ->
  heap w !! tp = Some (Some t) ->
  instances w !! tp_item_instance t = Some inst ->
  bar_instance_get_item_instance_from_coords (tp_instance t)
    (wl_fixed_to_int fx) (wl_fixed_to_int fy) <> Some (tp_item_instance t) ->
  exists w' inst',
    touch_handle_motion id fx fy w = Some w'
    /\ ~ In tp (touchpoints (tch w'))
    /\ heap w' !! tp = Some None
    /\ instances w' !! tp_item_instance t = Some inst'
    /\ active_indicator inst' = counter_safe_subtract (active_indicator inst) 1
    /\ dirty inst' = true
    /\ trace w' = trace w ++ [EvScheduleFrame (tp_instance t)]
    /\ interactions (trace w') = interactions (trace w)
    /\ executions (trace w') = executions (trace w)
    /\ ctx_loop w' = ctx_loop w /\ ctx_reload w' = ctx_reload w.
Proof.
  intros Hfound Hheap Hinst Hmoved.
  destruct (destroy_touchpoint_live tp w t inst Hheap Hinst)
    as (w' & inst' & Hd & Hgone & Hfree & Hl & Hact & _ & Hdirty & Htr & Hloop & Hrel).
  exists w', inst'.
  split.
  { unfold touch_handle_motion. rewrite Hfound. simpl. rewrite Hheap. simpl.
    destruct (bar_instance_get_item_instance_from_coords (tp_instance t)
                (wl_fixed_to_int fx) (wl_fixed_to_int fy)) as [ii |];
      [| exact Hd].
    rewrite bool_decide_eq_true_2; [exact Hd | congruence]. }
  repeat (split; [assumption |]).
  unfold interactions, executions. rewrite Htr, !List.filter_app. simpl.
  rewrite !app_nil_r. repeat split; assumption.
Qed.

(** No touch-down adds to the list of touchpoints. *)
Lemma touch_handle_down_list calloc_ok surface id fx fy (w w' : World) :
  touch_handle_down calloc_ok surface id fx fy w = Some w' ->
  touchpoints (tch w') = touchpoints (tch w).
Proof.
  unfold touch_handle_down.
  destruct (bar_instance_get_item_instance_from_coords _ _ _) as [ii |];
    [| intros [= <-]; reflexivity].
  unfold create_touchpoint. destruct calloc_ok; simpl;
    [| intros [= <-]; reflexivity].
  destruct (update_instance ii _ _) as [w2 |] eqn:Hup; simpl; [| discriminate].
  apply update_instance_inv in Hup. destruct Hup as (inst & _ & ->).
  intros [= <-]. reflexivity.
Qed.

(** With an empty list [touchpoint_from_id] returns NULL, and a motion or a
    touch-up returns with the state as it is. *)
Lemma touch_handle_motion_unlinked id fx fy (w : World) :
  touchpoints (tch w) = [] -> touch_handle_motion id fx fy w = Some w.
Proof.
  intros Hnil. unfold touch_handle_motion, touchpoint_from_id.
  rewrite Hnil. reflexivity.
Qed.

Lemma touch_handle_up_unlinked id (w : World) :
  touchpoints (tch w) = [] -> touch_handle_up id w = Some w.
Proof.
  intros Hnil. unfold touch_handle_up, touchpoint_from_id.
  rewrite Hnil. reflexivity.
Qed.

(** C2, as the code has it. [touch_handle_down] does not look the id up: a
    touch-down over an item instance, its allocation succeeding, allocates
    a new touchpoint with the id of the event, adds one to the press count
    of the instance and marks it dirty, whatever touchpoints are allocated. *)
Theorem touch_down_always_creates (w : World) (surface : handle)
    (id fx fy : Z) (ii : ptr) (inst : Lava_item_instance) :
  bar_instance_get_item_instance_from_coords
    (bar_instance_from_surface surface)
    (wl_fixed_to_int fx) (wl_fixed_to_int fy) = Some ii ->
  instances w !! ii = Some inst ->
  exists w' inst',
    touch_handle_down true surface id fx fy w = Some w'
    /\ heap w'
       = heap w ++ [Some (mk_touchpoint id (bar_instance_from_surface surface) ii)]
    /\ instances w' !! ii = Some inst'
    /\ active_indicator inst' = u32 (active_indicator inst + 1)
    /\ dirty inst' = true
    /\ trace w' = trace w ++ [EvScheduleFrame (bar_instance_from_surface surface)].
Proof.
  intros Hxy Hinst. unfold touch_handle_down. rewrite Hxy.
  unfold create_touchpoint.
  assert (Hinst1 : instances
            (set_heap (heap w ++ [Some (mk_touchpoint id
                                          (bar_instance_from_surface surface) ii)]) w)
            !! ii = Some inst) by exact Hinst.
  rewrite (update_instance_Some _ _ _ _ Hinst1). simpl.
  eexists _, _. split; [reflexivity |]. simpl.
  split; [reflexivity |].
  split; [eapply lookup_insert_instance; exact Hinst |].
  repeat split; reflexivity.
Qed.

(** ** Dispatch *)

Lemma execute_item_command_frame cmd bar (w : World) :
  seat (execute_item_command cmd bar w) = seat w
  /\ instances (execute_item_command cmd bar w) = instances w
  /\ heap (execute_item_command cmd bar w) = heap w
  /\ interactions (trace (execute_item_command cmd bar w)) = interactions (trace w).
Proof.
  unfold execute_item_command. destruct (cmd_command cmd); simpl;
    repeat split; try reflexivity.
  unfold interactions. rewrite List.filter_app. simpl. apply app_nil_r.
Qed.

(** A call of [item_interaction] writes to the trace and to the loop flags
    only, and is one more interaction of the trace. *)
Lemma item_interaction_frame item bar type mods special (w : World) :
  let w' := item_interaction item bar type mods special w in
  seat w' = seat w
  /\ instances w' = instances w
  /\ heap w' = heap w
  /\ interactions (trace w')
     = interactions (trace w) ++ [EvItemInteraction item bar type mods special].
Proof.
  assert (Hemit : interactions
            (trace (emit (EvItemInteraction item bar type mods special) w))
          = interactions (trace w) ++ [EvItemInteraction item bar type mods special]).
  { unfold interactions. simpl. rewrite List.filter_app. reflexivity. }
  assert (Hexec : forall cmd,
    let w' := execute_item_command cmd bar
                (emit (EvItemInteraction item bar type mods special) w) in
    seat w' = seat w /\ instances w' = instances w /\ heap w' = heap w
    /\ interactions (trace w')
       = interactions (trace w) ++ [EvItemInteraction item bar type mods special]).
  { intros cmd.
    destruct (execute_item_command_frame cmd bar
                (emit (EvItemInteraction item bar type mods special) w))
      as (Hs & Hi & Hh & Ht).
    simpl. rewrite Hs, Hi, Hh, Ht, Hemit. repeat split; reflexivity. }
  assert (Hother : forall e, is_interaction e = false ->
    interactions
      (trace (emit e (emit (EvItemInteraction item bar type mods special) w)))
    = interactions (trace w) ++ [EvItemInteraction item bar type mods special]).
  { intros e He. unfold interactions in *. simpl.
    rewrite List.filter_app. simpl. rewrite He, app_nil_r. exact Hemit. }
  unfold item_interaction.
  destruct (bool_decide (item_type item <> TYPE_BUTTON));
    [simpl; repeat split; try reflexivity; exact Hemit |].
  destruct (lookup_item_command item type mods special true) as [cmd |];
    [| simpl; repeat split; try reflexivity; exact Hemit].
  destruct (cmd_action cmd); try apply Hexec.
  - destruct (find_toplevel_with_app_id (associated_app_id item));
      [| apply Hexec].
    cbv zeta. repeat split; try reflexivity. apply Hother. reflexivity.
  - destruct (find_toplevel_with_app_id (associated_app_id item));
      [| apply Hexec].
    cbv zeta. repeat split; try reflexivity. apply Hother. reflexivity.
Qed.

(** ** The frame event *)

Lemma frame_interaction_hovered ii bar direction (w : World) inst :
  instances w !! ii = Some inst ->
  exists w1,
    frame_interaction ii bar direction w = Some w1
    /\ seat w1 = seat w
    /\ instances w1 = instances w
    /\ interactions (trace w1)
       = interactions (trace w)
         ++ [EvItemInteraction (ii_item inst) (Some bar) INTERACTION_MOUSE_SCROLL
               (modifiers (kbd w)) direction].
Proof.
  intros Hinst. unfold frame_interaction. rewrite Hinst. simpl.
  eexists. split; [reflexivity |].
  destruct (item_interaction_frame (ii_item inst) (Some bar)
              INTERACTION_MOUSE_SCROLL (modifiers (kbd w)) direction w)
    as (Hs & Hi & _ & Ht).
  repeat split; assumption.
Qed.

Lemma frame_discrete_loop_hovered n ii bar direction (w : World) inst :
  instances w !! ii = Some inst ->
  exists w1,
    frame_discrete_loop n ii bar direction w = Some w1
    /\ seat w1 = seat w
    /\ instances w1 = instances w
    /\ interactions (trace w1)
       = interactions (trace w)
         ++ repeat (EvItemInteraction (ii_item inst) (Some bar)
                      INTERACTION_MOUSE_SCROLL (modifiers (kbd w)) direction) n.
Proof.
  revert w. induction n as [| n IH]; intros w Hinst; simpl.
  - exists w. rewrite app_nil_r. repeat split; reflexivity.
  - destruct (frame_interaction_hovered ii bar direction w inst Hinst)
      as (w1 & -> & Hs & Hi & Ht).
    simpl. rewrite <- Hi in Hinst.
    destruct (IH w1 Hinst) as (w2 & -> & Hs2 & Hi2 & Ht2).
    exists w2. split; [reflexivity |].
    split; [congruence |]. split; [congruence |].
    rewrite Ht2, Ht. unfold kbd. rewrite Hs, <- app_assoc. reflexivity.
Qed.

(** C5, as the code has it. A frame event with [n > 0] discrete steps and an
    item instance hovered makes [n] calls of [item_interaction], all of type
    scroll; their direction is 0 (down) when the integer part of the
    continuous value is positive and 1 (up) otherwise; both accumulators are
    0 afterwards. *)
Theorem frame_dispatches_discrete_steps (fuel : nat) (w : World) (bar ii : ptr)
    (inst : Lava_item_instance) :
  instance (ptr_state w) = Some bar ->
  item_instance (ptr_state w) = Some ii ->
  instances w !! ii = Some inst ->
  0 < discrete_steps (ptr_state w) ->
  exists w',
    pointer_handle_frame fuel w = Some w'
    /\ interactions (trace w')
       = interactions (trace w)
         ++ repeat (EvItemInteraction (ii_item inst) (Some bar)
                      INTERACTION_MOUSE_SCROLL (modifiers (kbd w))
                      (if wl_fixed_to_int (value (ptr_state w)) >? 0
                       then 0 else 1))
              (Z.to_nat (discrete_steps (ptr_state w)))
    /\ discrete_steps (ptr_state w') = 0
    /\ value (ptr_state w') = 0.
Proof.
  intros Hbar Hhover Hinst Hsteps. unfold pointer_handle_frame.
  rewrite Hbar, Hhover.
  destruct (Z.eqb_spec (discrete_steps (ptr_state w)) 0) as [H0 | _]; [lia |].
  destruct (wl_fixed_to_int (value (ptr_state w)) >? 0); simpl;
    match goal with
    | |- context [frame_discrete_loop ?n ii bar ?d w] =>
        destruct (frame_discrete_loop_hovered n ii bar d w inst Hinst)
          as (w1 & -> & Hs & Hi & Ht)
    end; simpl; eexists; (split; [reflexivity |]); simpl;
    repeat split; assumption.
Qed.

Lemma continuous_turns_small v :
  Z.abs v <= CONTINUOUS_SCROLL_THRESHHOLD -> continuous_turns v = O.
Proof.
  unfold continuous_turns, CONTINUOUS_SCROLL_THRESHHOLD. intros H.
  destruct (Z.eq_dec v 0) as [-> | Hne]; [reflexivity |].
  rewrite Z.div_small; [reflexivity | lia].
Qed.

Lemma continuous_turns_step v change :
  CONTINUOUS_SCROLL_THRESHHOLD < Z.abs v ->
  (0 < v -> change = - CONTINUOUS_SCROLL_THRESHHOLD) ->
  (v < 0 -> change = CONTINUOUS_SCROLL_THRESHHOLD) ->
  continuous_turns v = S (continuous_turns (v + change))
  /\ Z.abs (v + change) = Z.abs v - CONTINUOUS_SCROLL_THRESHHOLD
  /\ Z.sgn (v + change) = Z.sgn v.
Proof.
  unfold continuous_turns, CONTINUOUS_SCROLL_THRESHHOLD. intros Hbig Hpos Hneg.
  assert (Habs : Z.abs (v + change) = Z.abs v - 10000) by lia.
  split; [| split; [exact Habs | lia]].
  rewrite Habs.
  replace (Z.abs v - 1) with (Z.abs v - 10000 - 1 + 1 * 10000) by lia.
  rewrite Z.div_add by lia.
  rewrite Z2Nat.inj_add; [| apply Z.div_pos; lia | lia].
  simpl. lia.
Qed.

(** With fuel for every turn, the [while] loop ends: it has made one call
    of [item_interaction] per turn and moved the value toward zero by one
    threshold per turn. *)
Lemma frame_continuous_loop_enough ii bar direction change inst (fuel : nat) :
  forall (w : World) (v : Z),
    value (ptr_state w) = v ->
    - half32 < v < half32 ->
    (CONTINUOUS_SCROLL_THRESHHOLD < Z.abs v -> 0 < v ->
     change = - CONTINUOUS_SCROLL_THRESHHOLD) ->
    (CONTINUOUS_SCROLL_THRESHHOLD < Z.abs v -> v < 0 ->
     change = CONTINUOUS_SCROLL_THRESHHOLD) ->
    instances w !! ii = Some inst ->
    (continuous_turns v <= fuel)%nat ->
    exists w',
      frame_continuous_loop fuel ii bar direction change w = Some w'
      /\ value (ptr_state w')
         = v - Z.sgn v * CONTINUOUS_SCROLL_THRESHHOLD * Z.of_nat (continuous_turns v)
      /\ discrete_steps (ptr_state w') = discrete_steps (ptr_state w)
      /\ instances w' = instances w
      /\ interactions (trace w')
         = interactions (trace w)
           ++ repeat (EvItemInteraction (ii_item inst) (Some bar)
                        INTERACTION_MOUSE_SCROLL (modifiers (kbd w)) direction)
                (continuous_turns v).
Proof.
  induction fuel as [| fuel IH]; intros w v Hv Hrange Hpos Hneg Hinst Hfuel.
  - assert (Hsmall : Z.abs v <= CONTINUOUS_SCROLL_THRESHHOLD).
    { destruct (Z_le_gt_dec (Z.abs v) CONTINUOUS_SCROLL_THRESHHOLD) as [H | H];
        [exact H |].
      assert (Hbig : CONTINUOUS_SCROLL_THRESHHOLD < Z.abs v) by lia.
      assert (Hc : (0 < v -> change = - CONTINUOUS_SCROLL_THRESHHOLD)
                   /\ (v < 0 -> change = CONTINUOUS_SCROLL_THRESHHOLD)) by auto.
      destruct (continuous_turns_step v change Hbig (proj1 Hc) (proj2 Hc))
        as (Hturns & _). lia. }
    exists w. simpl. unfold c_abs. rewrite Hv.
    destruct (Z.gtb_spec (Z.abs v) CONTINUOUS_SCROLL_THRESHHOLD) as [Hgt | _]; [lia |].
    rewrite (continuous_turns_small v Hsmall). simpl.
    rewrite app_nil_r, Z.mul_0_r, Z.sub_0_r. repeat split; reflexivity.
  - simpl. unfold c_abs. rewrite Hv.
    destruct (Z.gtb_spec (Z.abs v) CONTINUOUS_SCROLL_THRESHHOLD) as [Hgt | Hle].
    + assert (Hbig : CONTINUOUS_SCROLL_THRESHHOLD < Z.abs v) by lia.
      assert (Hc : (0 < v -> change = - CONTINUOUS_SCROLL_THRESHHOLD)
                   /\ (v < 0 -> change = CONTINUOUS_SCROLL_THRESHHOLD)) by auto.
      destruct (continuous_turns_step v change Hbig (proj1 Hc) (proj2 Hc))
        as (Hturns & Habs & Hsgn).
      destruct (frame_interaction_hovered ii bar direction w inst Hinst)
        as (w1 & -> & Hs & Hi & Ht).
      simpl.
      assert (Hv1 : value (ptr_state w1) = v) by (unfold ptr_state; rewrite Hs; exact Hv).
      rewrite Hv1.
      assert (Hin : is_s32 (v + change)).
      { unfold is_s32, CONTINUOUS_SCROLL_THRESHHOLD in *. lia. }
      rewrite (s32_small _ Hin).
      set (w2 := set_pointer (set_value (v + change) (ptr_state w1)) w1).
      destruct (IH w2 (v + change)) as (w' & Hloop & Hval & Hds & Hinsts & Htr).
      * reflexivity.
      * unfold is_s32 in Hin. unfold CONTINUOUS_SCROLL_THRESHHOLD in *. lia.
      * intros Hb Hp. apply Hpos; lia.
      * intros Hb Hn. apply Hneg; lia.
      * unfold w2. simpl. rewrite Hi. exact Hinst.
      * lia.
      * exists w'. split; [exact Hloop |].
        split.
        { rewrite Hval, Hsgn, Hturns, Nat2Z.inj_succ.
          unfold CONTINUOUS_SCROLL_THRESHHOLD in *.
          destruct (Z.sgn_spec v) as [[Hp ->] | [[Hz _] | [Hn ->]]]; [| lia |].
          - rewrite (proj1 Hc Hp). lia.
          - rewrite (proj2 Hc Hn). lia. }
        split; [rewrite Hds; unfold w2, ptr_state; simpl; rewrite Hs; reflexivity |].
        split; [rewrite Hinsts; unfold w2; simpl; exact Hi |].
        rewrite Htr, Hturns. unfold w2. simpl. rewrite Ht.
        unfold kbd. simpl. rewrite Hs, <- app_assoc. reflexivity.
    + exists w. rewrite (continuous_turns_small v Hle). simpl.
      rewrite app_nil_r, Z.mul_0_r, Z.sub_0_r.
      repeat split; first [reflexivity | exact Hv].
Qed.

Lemma wl_fixed_to_int_sign v :
  CONTINUOUS_SCROLL_THRESHHOLD < Z.abs v ->
  (wl_fixed_to_int v >? 0) = (0 <? v).
Proof.
  unfold CONTINUOUS_SCROLL_THRESHHOLD, wl_fixed_to_int. intros Hbig.
  destruct (Z.ltb_spec 0 v) as [Hp | Hn].
  - pose proof (Z.quot_str_pos v 256). lia.
  - assert (Hq : Z.quot v 256 <= 0).
    { replace v with (- - v) by lia. rewrite Z.quot_opp_l by lia.
      pose proof (Z.quot_pos (- v) 256). lia. }
    lia.
Qed.

(** C6. A frame event with no discrete steps, an item instance hovered and
    a continuous value [v] of magnitude above the threshold ends (given fuel
    for its turns) after [(|v| - 1) / 10000] calls of [item_interaction],
    at least one, one for each threshold's worth by which [|v|] exceeds
    the threshold; the value has moved toward zero by 10000 per call and what
    is left, between 1 and 10000 in magnitude, stays in the accumulator. *)
Theorem frame_dispatches_continuous (fuel : nat) (w : World) (bar ii : ptr)
    (inst : Lava_item_instance) (v : Z) :
  instance (ptr_state w) = Some bar ->
  item_instance (ptr_state w) = Some ii ->
  instances w !! ii = Some inst ->
  discrete_steps (ptr_state w) = 0 ->
  value (ptr_state w) = v ->
  CONTINUOUS_SCROLL_THRESHHOLD < Z.abs v < half32 ->
  (continuous_turns v <= fuel)%nat ->
  exists w',
    pointer_handle_frame fuel w = Some w'
    /\ interactions (trace w')
       = interactions (trace w)
         ++ repeat (EvItemInteraction (ii_item inst) (Some bar)
                      INTERACTION_MOUSE_SCROLL (modifiers (kbd w))
                      (if 0 <? v then 0 else 1))
              (continuous_turns v)
    /\ (1 <= continuous_turns v)%nat
    /\ value (ptr_state w')
       = v - Z.sgn v * CONTINUOUS_SCROLL_THRESHHOLD * Z.of_nat (continuous_turns v)
    /\ 0 < Z.abs (value (ptr_state w')) <= CONTINUOUS_SCROLL_THRESHHOLD
    /\ discrete_steps (ptr_state w') = 0.
Proof.
  intros Hbar Hhover Hinst Hds Hv [Hbig Hrange] Hfuel.
  unfold pointer_handle_frame. rewrite Hbar, Hhover, Hds, Hv. simpl.
  rewrite (wl_fixed_to_int_sign v Hbig).
  assert (Hr : - half32 < v < half32) by lia.
  assert (Hturns : (1 <= continuous_turns v)%nat
                   /\ CONTINUOUS_SCROLL_THRESHHOLD * Z.of_nat (continuous_turns v)
                      < Z.abs v
                      <= CONTINUOUS_SCROLL_THRESHHOLD
                         * (Z.of_nat (continuous_turns v) + 1)).
  { unfold continuous_turns, CONTINUOUS_SCROLL_THRESHHOLD in *.
    assert (H1 : 1 <= (Z.abs v - 1) / 10000)
      by (apply Z.div_le_lower_bound; lia).
    rewrite Z2Nat.id by lia.
    pose proof (Z.div_mod (Z.abs v - 1) 10000 ltac:(lia)) as Hdm.
    pose proof (Z.mod_pos_bound (Z.abs v - 1) 10000 ltac:(lia)) as Hmb.
    split; [| lia].
    change 1%nat with (Z.to_nat 1). apply Z2Nat.inj_le; lia. }
  destruct Hturns as (Hone & Hlow & Hhigh).
  destruct (Z.ltb_spec 0 v) as [Hp | Hn].
  - destruct (frame_continuous_loop_enough ii bar 0 (- CONTINUOUS_SCROLL_THRESHHOLD)
                inst fuel w v Hv Hr) as (w' & Hloop & Hval & Hd & _ & Htr);
      [reflexivity | lia | exact Hinst | exact Hfuel |].
    exists w'. repeat (split; [first [assumption | congruence] |]).
    split; [| congruence].
    rewrite Hval. rewrite Z.sgn_pos in * by lia.
    unfold CONTINUOUS_SCROLL_THRESHHOLD in *. lia.
  - destruct (frame_continuous_loop_enough ii bar 1 CONTINUOUS_SCROLL_THRESHHOLD
                inst fuel w v Hv Hr) as (w' & Hloop & Hval & Hd & _ & Htr);
      [lia | reflexivity | exact Hinst | exact Hfuel |].
    exists w'. repeat (split; [first [assumption | congruence] |]).
    split; [| congruence].
    rewrite Hval. rewrite Z.sgn_neg in * by lia.
    unfold CONTINUOUS_SCROLL_THRESHHOLD in *. lia.
Qed.

(** ** Button events *)

Lemma click_conv_idem a b : click_conv (click_conv a + b) = click_conv (a + b).
Proof.
  unfold click_conv, s32, u32, modulus32, half32. destruct click_signed.
  - f_equal.
    replace ((a + 2 ^ 31) mod 2 ^ 32 - 2 ^ 31 + b + 2 ^ 31)
      with ((a + 2 ^ 31) mod 2 ^ 32 + b) by lia.
    rewrite Zplus_mod_idemp_l. f_equal. lia.
  - apply Zplus_mod_idemp_l.
Qed.

Lemma click_conv_negative z :
  - half32 <= z < 0 -> click_conv z = if click_signed then z else z + modulus32.
Proof.
  intros H. unfold click_conv. destruct click_signed.
  - apply s32_small. unfold is_s32, half32 in *. lia.
  - unfold u32. rewrite <- (Z.mod_add z 1 modulus32) by (unfold modulus32; lia).
    apply Z.mod_small. unfold modulus32, half32 in *. lia.
Qed.

Lemma click_conv_small z : 0 <= z < half32 -> click_conv z = z.
Proof.
  intros H. unfold click_conv. destruct click_signed.
  - apply s32_small. unfold is_s32, half32 in *. lia.
  - apply u32_small. unfold is_u32, modulus32, half32 in *. lia.
Qed.

(** One button event over a bar: the press depth moves by one, up or
    down, and is converted to the type of the field. *)
Lemma pointer_handle_button_click button button_state (w : World) bar :
  instance (ptr_state w) = Some bar ->
  hover_valid w ->
  exists w',
    pointer_handle_button button button_state w = Some w'
    /\ click (ptr_state w')
       = click_conv (click (ptr_state w) + button_delta button_state)
    /\ instance (ptr_state w') = Some bar
    /\ hover_valid w'.
Proof.
  intros Hbar Hvalid. unfold pointer_handle_button, button_delta. rewrite Hbar.
  destruct (button_state =? WL_POINTER_BUTTON_STATE_PRESSED); simpl.
  - destruct (item_instance (ptr_state w)) as [ii |] eqn:Hhover.
    + destruct (lookup_lt_is_Some_2 (instances w) ii (Hvalid ii Hhover))
        as [inst Hinst].
      unfold update_instance. simpl. rewrite Hinst. simpl.
      eexists. split; [reflexivity |]. simpl.
      repeat split; try assumption; try reflexivity.
      all: try (intros j Hj; simpl in *; rewrite length_insert; apply Hvalid; exact Hj).
    + eexists. split; [reflexivity |]. simpl.
      repeat split; try assumption; try reflexivity.
  - destruct (item_instance (ptr_state w)) as [ii |] eqn:Hhover.
    + destruct (lookup_lt_is_Some_2 (instances w) ii (Hvalid ii Hhover))
        as [inst Hinst].
      unfold update_instance. simpl. rewrite Hinst. simpl.
      rewrite (lookup_insert_instance _ _ _ _ Hinst). simpl.
      match goal with
      | |- context [item_interaction ?it ?b ?t ?m ?s ?w0] =>
          destruct (item_interaction_frame it b t m s w0) as (Hs & Hi & _ & _);
          set (wI := item_interaction it b t m s w0) in *
      end.
      eexists. split; [reflexivity |].
      unfold ptr_state, hover_valid in *. simpl. rewrite Hs, Hi. simpl.
      repeat split; try assumption; try reflexivity.
      intros j Hj. rewrite length_insert. apply Hvalid.
      unfold ptr_state in Hj. simpl in Hj. rewrite Hs in Hj. exact Hj.
    + eexists. split; [reflexivity |]. simpl.
      repeat split; try assumption; try reflexivity.
Qed.

(** C3, as the code has it. A button event over a bar moves the press depth
    by exactly one: after any sequence of button events it is the depth at
    the start plus the presses minus the releases, as a value of the type of
    the field. Nothing saturates: a count from 0 to 2^31 - 1 is the depth
    itself; a count below zero, down to -2^31, is the depth itself when the
    field is signed, and the depth is the count plus 2^32 when it is
    unsigned. *)
Theorem press_depth_counts_button_events (evs : list (Z * Z)) (w : World)
    (bar : ptr) :
  instance (ptr_state w) = Some bar ->
  hover_valid w ->
  click_conv (click (ptr_state w)) = click (ptr_state w) ->
  exists w',
    pointer_button_events evs w = Some w'
    /\ click (ptr_state w')
       = click_conv (click (ptr_state w) + net_presses evs)
    /\ (0 <= click (ptr_state w) + net_presses evs < half32 ->
        click (ptr_state w') = click (ptr_state w) + net_presses evs)
    /\ (- half32 <= click (ptr_state w) + net_presses evs < 0 ->
        click (ptr_state w')
        = if click_signed then click (ptr_state w) + net_presses evs
          else click (ptr_state w) + net_presses evs + modulus32).
Proof.
  revert w. induction evs as [| [button st] evs IH]; intros w Hbar Hvalid Hconv.
  - exists w. simpl. rewrite Z.add_0_r. split; [reflexivity |].
    split; [symmetry; exact Hconv |].
    split; [intros _; reflexivity |].
    intros Hneg. rewrite <- Hconv at 1. apply click_conv_negative. exact Hneg.
  - destruct (pointer_handle_button_click button st w bar Hbar Hvalid)
      as (w1 & Hstep & Hclick & Hbar1 & Hvalid1).
    assert (Hconv1 : click_conv (click (ptr_state w1)) = click (ptr_state w1)).
    { rewrite Hclick.
      pose proof (click_conv_idem (click (ptr_state w) + button_delta st) 0) as H.
      rewrite !Z.add_0_r in H. exact H. }
    destruct (IH w1 Hbar1 Hvalid1 Hconv1) as (w' & Hrun & Hfinal & _).
    exists w'. simpl. rewrite Hstep. simpl.
    split; [exact Hrun |].
    assert (Heq : click (ptr_state w')
                  = click_conv (click (ptr_state w)
                                + (button_delta st + net_presses evs))).
    { rewrite Hfinal, Hclick, click_conv_idem. f_equal. lia. }
    split; [exact Heq |].
    split; intros Hrange; rewrite Heq.
    + apply click_conv_small. exact Hrange.
    + apply click_conv_negative. exact Hrange.
Qed.

End Handlers.

(** * The properties on the panel *)

Lemma counter_safe_subtract_saturates_witness :
  (forall n, is_u32 n -> counter_safe_subtract 3 n = if n >? 3 then 0 else 3 - n)
  /\ (forall k, 0 <= fold_left counter_safe_subtract (take k [5; 1]) 3 <= 3).
Proof.
  apply (counter_safe_subtract_saturates 3 [5; 1]).
  - unfold is_u32, modulus32. lia.
  - repeat constructor; unfold modulus32; lia.
Defined.


(** The table of the launcher, the binding for the left button first: a
    left click resolves to it, a right click to the universal binding. *)
Example launcher_resolution :
  lookup_item_command launcher INTERACTION_MOUSE_BUTTON 0 BTN_LEFT true
  = Some left_click_command
  /\ lookup_item_command launcher INTERACTION_MOUSE_BUTTON 0 BTN_RIGHT true
     = Some universal_command.
Proof. split; reflexivity. Qed.


(** The touch-down with id 7 on item 0 of the idle panel. *)
Example panel_down_reached :
  touch_handle_down one_bar item_at true 5%nat 7 2560 2560 panel_idle
  = Some panel_down.
Proof. reflexivity. Qed.

(** Two touch-downs with id 7 over item 0 and no touch-up between them.
    After the first a touchpoint with id 7 is allocated and the press count
    is 1; the second allocates another touchpoint with id 7 and the press
    count is 2. *)
Lemma touch_down_twice_same_id :
  touch_handle_down one_bar item_at true 5%nat 7 2560 2560 panel_idle
  = Some panel_down
  /\ heap panel_down = [Some (mk_touchpoint 7 (Some O) O)]
  /\ active_indicator <$> instances panel_down !! O = Some 1
  /\ exists w2,
       touch_handle_down one_bar item_at true 5%nat 7 2560 2560 panel_down
       = Some w2
       /\ heap w2 = [Some (mk_touchpoint 7 (Some O) O);
                     Some (mk_touchpoint 7 (Some O) O)]
       /\ active_indicator <$> instances w2 !! O = Some 2.
Proof.
  split; [reflexivity |]. split; [reflexivity |]. split; [reflexivity |].
  eexists. split; [reflexivity |]. split; reflexivity.
Qed.

Lemma touch_down_always_creates_witness :
  exists w' inst',
    touch_handle_down one_bar item_at true 5%nat 7 2560 2560 panel_down = Some w'
    /\ heap w' = heap panel_down ++ [Some (mk_touchpoint 7 (one_bar 5%nat) O)]
    /\ instances w' !! O = Some inst'
    /\ active_indicator inst'
       = u32 (active_indicator (mk_item_instance launcher O 0 1 0 0 true true) + 1)
    /\ dirty inst' = true
    /\ trace w' = trace panel_down ++ [EvScheduleFrame (one_bar 5%nat)].
Proof.
  apply (touch_down_always_creates one_bar item_at panel_down 5%nat 7 2560 2560
           O (mk_item_instance launcher O 0 1 0 0 true true)); reflexivity.
Defined.

(** C9, on the panel. A touch-down with id 7 on item 0, then a motion of
    that touch onto item 1, or off every item. [create_touchpoint] has not
    put the touchpoint into the list, so [touchpoint_from_id] returns NULL
    and [touch_handle_motion] returns at its NULL check: the touchpoint
    stays allocated and the press count of item 0 stays 1. The touch-up
    finds no touchpoint either. So it is on every seat: no touch-down adds
    to the list, and with an empty list a motion or a touch-up changes
    nothing. *)
Theorem touch_drift_destroys_nothing :
  touch_handle_down one_bar item_at true 5%nat 7 2560 2560 panel_idle
  = Some panel_down
  /\ heap panel_down !! O = Some (Some (mk_touchpoint 7 (Some O) O))
  /\ active_indicator <$> instances panel_down !! O = Some 1
  /\ item_at (Some O) (wl_fixed_to_int 25600) (wl_fixed_to_int 2560) = Some 1%nat
  /\ item_at (Some O) (wl_fixed_to_int 256000) (wl_fixed_to_int 2560) = None
  /\ touchpoint_from_id panel_down 7 = Some None
  /\ touch_handle_motion item_at 7 25600 2560 panel_down = Some panel_down
  /\ touch_handle_motion item_at 7 256000 2560 panel_down = Some panel_down
  /\ touch_handle_up no_toplevel 7 panel_down = Some panel_down
  /\ (forall surface_bar coords calloc_ok surface id fx fy w w',
        touch_handle_down surface_bar coords calloc_ok surface id fx fy w
        = Some w' ->
        touchpoints (tch w') = touchpoints (tch w))
  /\ (forall coords id fx fy w,
        touchpoints (tch w) = [] ->
        touch_handle_motion coords id fx fy w = Some w)
  /\ (forall find_toplevel id w,
        touchpoints (tch w) = [] ->
        touch_handle_up find_toplevel id w = Some w).
Proof.
  repeat (split; [reflexivity |]). split; [| split].
  - intros surface_bar coords calloc_ok surface id fx fy w w'.
    apply touch_handle_down_list.
  - intros coords id fx fy w. apply touch_handle_motion_unlinked.
  - intros find_toplevel id w. apply touch_handle_up_unlinked.
Qed.

(** A release that arrives at press depth 0 leaves the depth at -1 when the
    field is signed, and at 2^32 - 1 when it is unsigned. *)
Lemma release_at_depth_zero_is_not_saturated :
  click (ptr_state panel_idle) = 0
  /\ (click <$> (ptr_state <$>
        pointer_handle_button no_toplevel true BTN_LEFT 0 panel_idle)) = Some (-1)
  /\ (click <$> (ptr_state <$>
        pointer_handle_button no_toplevel false BTN_LEFT 0 panel_idle))
     = Some 4294967295.
Proof. repeat split; reflexivity. Qed.

(** A press and two releases from depth 0, the field signed: depth -1. *)
Lemma press_depth_counts_button_events_witness :
  exists w',
    pointer_button_events no_toplevel true
      [(BTN_LEFT, 1); (BTN_LEFT, 0); (BTN_RIGHT, 0)] (panel_hover 0 0 0) = Some w'
    /\ click (ptr_state w')
       = click_conv true
           (click (ptr_state (panel_hover 0 0 0))
            + net_presses [(BTN_LEFT, 1); (BTN_LEFT, 0); (BTN_RIGHT, 0)])
    /\ click (ptr_state w') = -1.
Proof.
  destruct (press_depth_counts_button_events no_toplevel true
              [(BTN_LEFT, 1); (BTN_LEFT, 0); (BTN_RIGHT, 0)] (panel_hover 0 0 0) O)
    as (w' & Hrun & Hdepth & _ & Hneg).
  - reflexivity.
  - intros ii H. vm_compute in H. injection H as <-. simpl. lia.
  - reflexivity.
  - exists w'. split; [exact Hrun |]. split; [exact Hdepth |].
    apply Hneg. vm_compute. split; [discriminate | reflexivity].
Defined.

(** C4, on the panel. The keyboard is bound and a modifier is held when a
    keymap arrives from which no xkb keymap, or no xkb state, can be made.
    [keyboard_handle_keymap] drops the old keymap and state and logs the
    failure; the keyboard object and the xkb context stay and the modifier
    mask keeps its old value. The same failures in [seat_bind_keyboard] end
    in [seat_release_keyboard], which leaves nothing bound and the mask 0. *)
Theorem keymap_failure_keeps_keyboard_bound :
  kbd (keyboard_handle_keymap true None None panel_keyboard)
  = mk_keyboard (Some 20%nat) (Some 21%nat) None None 1
  /\ kbd (keyboard_handle_keymap true (Some 30%nat) None panel_keyboard)
     = mk_keyboard (Some 20%nat) (Some 21%nat) (Some 30%nat) None 1
  /\ trace (keyboard_handle_keymap true None None panel_keyboard)
     = [EvDestroy "xkb_keymap_unref" 22%nat; EvDestroy "xkb_state_unref" 23%nat;
        EvLog "Error: Failed to get xkb keymap."]
  /\ kbd (seat_release_keyboard panel_keyboard) = no_keyboard
  /\ kbd (seat_bind_keyboard (Some 20%nat) (Some 21%nat) None None panel_keyboard)
     = no_keyboard
  /\ kbd (seat_bind_keyboard (Some 20%nat) (Some 21%nat) (Some 30%nat) None
            panel_keyboard)
     = no_keyboard.
Proof. repeat split; reflexivity. Qed.

(** On every seat a failed keymap replacement leaves the keyboard object,
    the context and the modifier mask as they were. *)
Lemma keyboard_handle_keymap_failure (w : World) (new_keymap new_state : option nat) :
  new_keymap = None \/ new_state = None ->
  let k' := kbd (keyboard_handle_keymap true new_keymap new_state w) in
  wl_keyboard k' = wl_keyboard (kbd w)
  /\ kb_context k' = kb_context (kbd w)
  /\ modifiers k' = modifiers (kbd w)
  /\ kb_state k' = None.
Proof.
  intros H. destruct w as [[ws [wk kc km ks md] t p] insts hp lp rl tr].
  unfold keyboard_handle_keymap, destroy_null, kbd. simpl.
  destruct H as [-> | ->]; destruct km, ks; try destruct new_keymap;
    simpl; repeat split; reflexivity.
Qed.

(** Three discrete steps and a continuous value of 15.0: the frame event
    makes three calls of [item_interaction], with direction 0, which is
    down, not 1. *)
Lemma positive_value_scrolls_down :
  let w := pointer_handle_axis 100 0 3840
             (pointer_handle_axis_discrete 0 3 (panel_hover 0 0 0)) in
  discrete_steps (ptr_state w) = 3
  /\ value (ptr_state w) = 3840
  /\ exists w',
       pointer_handle_frame no_toplevel O w = Some w'
       /\ interactions (trace w')
          = repeat (EvItemInteraction launcher (Some O)
                      INTERACTION_MOUSE_SCROLL 0 0) 3.
Proof.
  split; [reflexivity |]. split; [reflexivity |].
  eexists. split; reflexivity.
Qed.

Lemma frame_dispatches_discrete_steps_witness :
  exists w',
    pointer_handle_frame no_toplevel O (panel_hover 3 3840 0) = Some w'
    /\ interactions (trace w')
       = repeat (EvItemInteraction launcher (Some O)
                   INTERACTION_MOUSE_SCROLL 0 0) 3
    /\ discrete_steps (ptr_state w') = 0
    /\ value (ptr_state w') = 0.
Proof.
  destruct (frame_dispatches_discrete_steps no_toplevel O (panel_hover 3 3840 0)
              O O (launcher_instance 1 0))
    as (w' & Hframe & Htrace & Hsteps & Hvalue);
    [reflexivity | reflexivity | reflexivity | simpl; lia |].
  exists w'. repeat split; assumption.
Defined.

(** An accumulator of 25000: two calls, 5000 left. *)
Lemma frame_dispatches_continuous_witness :
  exists w',
    pointer_handle_frame no_toplevel 2 (panel_hover 0 25000 0) = Some w'
    /\ interactions (trace w')
       = [EvItemInteraction launcher (Some O) INTERACTION_MOUSE_SCROLL 0 0;
          EvItemInteraction launcher (Some O) INTERACTION_MOUSE_SCROLL 0 0]
    /\ value (ptr_state w') = 5000
    /\ discrete_steps (ptr_state w') = 0.
Proof.
  destruct (frame_dispatches_continuous no_toplevel 2 (panel_hover 0 25000 0)
              O O (launcher_instance 1 0) 25000)
    as (w' & Hframe & Htrace & _ & Hvalue & _ & Hsteps);
    [reflexivity | reflexivity | reflexivity | reflexivity | reflexivity
    | unfold CONTINUOUS_SCROLL_THRESHHOLD, half32; simpl; lia
    | vm_compute; lia |].
  exists w'. repeat split; assumption.
Defined.

(** The four names alone, a name with a command after it, and strings
    that are commands to run. *)
Example meta_action_strings :
  item_add_command true [] "@reload" INTERACTION_TOUCH 0 0
  = AddTrue [mk_command INTERACTION_TOUCH META_ACTION_RELOAD None 0 0]
  /\ item_add_command true [] "@exit notify-send bye" INTERACTION_TOUCH 0 0
     = AddTrue [mk_command INTERACTION_TOUCH META_ACTION_EXIT
                  (Some " notify-send bye") 0 0]
  /\ item_add_command true [] "@toplevel-close" INTERACTION_TOUCH 0 0
     = AddTrue [mk_command INTERACTION_TOUCH META_ACTION_TOPLEVEL_CLOSE None 0 0]
  /\ item_add_command true [] "firefox" INTERACTION_TOUCH 0 0
     = AddTrue [mk_command INTERACTION_TOUCH META_ACTION_NONE (Some "firefox") 0 0]
  /\ item_add_command true [] "@home/bin/run" INTERACTION_TOUCH 0 0
     = AddTrue [mk_command INTERACTION_TOUCH META_ACTION_NONE
                  (Some "@home/bin/run") 0 0]
  /\ item_add_command false [] "firefox" INTERACTION_TOUCH 0 0 = AddFalse.
Proof. repeat split; reflexivity. Qed.

(** C7, on a short string. ["@re"] begins with none of the four names, yet
    [string_starts_with] holds of it and ["@reload"]: the command becomes a
    reload, and the string to store is read at [command + 7], past the end
    of a string of length 3. *)
Theorem short_at_string_taken_for_meta_action :
  (forall name act rest, In (name, act) actions -> "@re" <> (name ++ rest)%string)
  /\ string_starts_with "@re" "@reload" = true
  /\ string_offset "@re" (String.length "@reload") = None
  /\ item_add_command true [] "@re" INTERACTION_TOUCH 0 0
     = AddUndefined [mk_command INTERACTION_TOUCH META_ACTION_RELOAD None 0 0].
Proof.
  split; [| repeat split; reflexivity].
  intros name act rest Hin Heq.
  apply (f_equal String.length) in Heq. rewrite length_append in Heq.
  unfold actions in Hin. simpl in Hin.
  destruct Hin as [[= <- <-] | [[= <- <-] | [[= <- <-] | [[= <- <-] | []]]]];
    simpl in Heq; lia.
Qed.

(** The pointer hovers over item 0 with nothing pressed. A release and then
    a press: the press depth is back at 0 and the press count of the item is
    1. [seat_release_pointer], and [destroy_seat], take that depth from the
    press count: the seat has no hovered item any more, the hover count is
    0, and the press count of the item stays 1. So it is with the field
    signed and with the field unsigned. *)
Lemma release_before_press_leaves_press_count :
  Forall (fun signed : bool =>
    let pressed :=
      pointer_button_events no_toplevel signed [(BTN_LEFT, 0); (BTN_LEFT, 1)]
        (panel_hover 0 0 0) in
    let released := pressed ≫= seat_release_pointer in
    let destroyed := pressed ≫= destroy_seat in
    click <$> (ptr_state <$> pressed) = Some 0
    /\ pressed ≫= press_count O = Some 1
    /\ item_instance <$> (ptr_state <$> released) = Some None
    /\ click <$> (ptr_state <$> released) = Some 0
    /\ released ≫= hover_count O = Some 0
    /\ released ≫= press_count O = Some 1
    /\ item_instance <$> (ptr_state <$> destroyed) = Some None
    /\ destroyed ≫= press_count O = Some 1)
  [true; false].
Proof.
  apply Forall_cons_2; [| apply Forall_cons_2; [| apply Forall_nil_2]];
    vm_compute; repeat split; reflexivity.
Qed.

(** Two buttons are down on item 0, which a second seat hovers and presses
    too: hover count 2 and press count 3 come out as 1 and 1. *)
Lemma seat_release_pointer_unwinds_hover_witness :
  let w := panel no_keyboard (mk_touch None []) (pointer_over (Some O) 0 0 2)
             [launcher_instance 2 3; launcher_instance 0 0] [] in
  (exists w' inst',
     seat_release_pointer w = Some w'
     /\ instances w' !! O = Some inst'
     /\ indicator inst' = 1
     /\ active_indicator inst' = 1
     /\ dirty inst' = true
     /\ item_instance (ptr_state w') = None
     /\ click (ptr_state w') = 0)
  /\ (exists w' inst',
        destroy_seat w = Some w'
        /\ instances w' !! O = Some inst'
        /\ indicator inst' = 1
        /\ active_indicator inst' = 1
        /\ item_instance (ptr_state w') = None
        /\ click (ptr_state w') = 0).
Proof.
  intros w.
  destruct (seat_release_pointer_unwinds_hover w O (launcher_instance 2 3))
    as [(w' & inst' & Hrel & Hl & Hind & Hact & _ & Hdirty & _ & _ & Hnone & Hclick)
        [_ Hdestroy]].
  - reflexivity.
  - reflexivity.
  - repeat constructor; unfold modulus32; simpl; lia.
  - split.
    + exists w', inst'. repeat (split; [assumption |]). assumption.
    + destruct Hdestroy
        as (w3 & inst3 & Hrel3 & Hl3 & Hind3 & Hact3 & _ & _ & Hnone3 & Hclick3);
        [reflexivity |].
      exists w3, inst3. repeat (split; [assumption |]). assumption.
Defined.
